(** * The Prismic runtime of gatsby-source-prismic

    A shallow embedding of
    [packages/gatsby-source-prismic/src/runtime/runtime.ts]: the identity
    and digest helpers ([createNodeId], [createContentDigest]), the
    type-path registry lookup, the node lookup, and the [Runtime] class with
    its subscriber notification. *)

From Stdlib Require Import ZArith String Ascii List.
From stdpp Require Import base option list strings pretty.

Import ListNotations.
Local Open Scope string_scope.
Local Open Scope Z_scope.

(** ** JavaScript strings

    A JavaScript string is modelled by the sequence of bytes of its UTF-8
    encoding, which is also what [tiny-hashes/md5] hashes. A string that
    is not well-formed holds a surrogate code unit with no partner; such a
    code unit is written as the three bytes UTF-8 would give to its code
    point, U+D800 to U+DFFF: the byte 237, a byte from 160 to 191 and a
    continuation byte. A surrogate pair is one code point, written with
    four bytes. *)

Module JsString.

Definition code (a : ascii) : Z := Z.of_N (N_of_ascii a).

(** The code point written by three bytes. *)
Definition code_point3 (a b c : ascii) : Z :=
  Z.lor (Z.shiftl (Z.land (code a) 15) 12)
        (Z.lor (Z.shiftl (Z.land (code b) 63) 6) (Z.land (code c) 63)).

(** The three bytes of a surrogate code point. *)
Definition surrogate (a b c : ascii) : bool :=
  (code a =? 237) && (160 <=? code b) && (code b <=? 191)
  && (128 <=? code c) && (code c <=? 191).

(** Whether a surrogate code point starts at the byte [a], followed by
    [rest]. *)
Definition surrogate_at (a : ascii) (rest : string) : bool :=
  match rest with
  | String b (String c _) => surrogate a b c
  | _ => false
  end.

(** Whether the string holds a surrogate with no partner. *)
Fixpoint ill_formed (s : string) : bool :=
  match s with
  | EmptyString => false
  | String a rest => surrogate_at a rest || ill_formed rest
  end.

(** [Array.prototype.join] on an array of strings. *)
Fixpoint join (sep : string) (parts : list string) : string :=
  match parts with
  | [] => EmptyString
  | [x] => x
  | x :: rest => x ++ sep ++ join sep rest
  end.

(** [s.replace(/c/g, d)] for single characters [c] and [d]. *)
Fixpoint replace_all (c d : ascii) (s : string) : string :=
  match s with
  | EmptyString => EmptyString
  | String a rest =>
      String (if Ascii.eqb a c then d else a) (replace_all c d rest)
  end.

Definition bytes (s : string) : list Z :=
  map code (list_ascii_of_string s).

End JsString.

(** ** Completions

    A call returns a value or throws. The one error the modelled code
    raises is the [URIError] of [encodeURI]. *)

Inductive JsError : Type := URIError.

Inductive Completion (A : Type) : Type :=
  | Returns (a : A)
  | Throws (e : JsError).

Arguments Returns {A} a.
Arguments Throws {A} e.

(** ** MD5

    [tiny-hashes/md5] is an external dependency. It takes the bytes of the
    string with [unescape(encodeURI(s))] and hashes them: it is modelled as
    [encodeURI]'s check of the string followed by the MD5 function of RFC
    1321 applied to the bytes, rendered as 32 lowercase hexadecimal digits.
    Words are 32-bit unsigned integers held in [Z], with the wrap-around
    written out. *)

Module MD5.

Definition mask32 : Z := 4294967295.

Definition wrap32 (x : Z) : Z := Z.land x mask32.

Definition add32 (x y : Z) : Z := wrap32 (x + y).

Definition not32 (x : Z) : Z := Z.lxor x mask32.

Definition rotl32 (x c : Z) : Z :=
  wrap32 (Z.lor (Z.shiftl x c) (Z.shiftr x (32 - c))).

Definition K : list Z :=
  [ 3614090360; 3905402710; 606105819; 3250441966;
    4118548399; 1200080426; 2821735955; 4249261313;
    1770035416; 2336552879; 4294925233; 2304563134;
    1804603682; 4254626195; 2792965006; 1236535329;
    4129170786; 3225465664; 643717713; 3921069994;
    3593408605; 38016083; 3634488961; 3889429448;
    568446438; 3275163606; 4107603335; 1163531501;
    2850285829; 4243563512; 1735328473; 2368359562;
    4294588738; 2272392833; 1839030562; 4259657740;
    2763975236; 1272893353; 4139469664; 3200236656;
    681279174; 3936430074; 3572445317; 76029189;
    3654602809; 3873151461; 530742520; 3299628645;
    4096336452; 1126891415; 2878612391; 4237533241;
    1700485571; 2399980690; 4293915773; 2240044497;
    1873313359; 4264355552; 2734768916; 1309151649;
    4149444226; 3174756917; 718787259; 3951481745 ].

Definition S : list Z :=
  [ 7; 12; 17; 22; 7; 12; 17; 22; 7; 12; 17; 22; 7; 12; 17; 22;
    5; 9; 14; 20; 5; 9; 14; 20; 5; 9; 14; 20; 5; 9; 14; 20;
    4; 11; 16; 23; 4; 11; 16; 23; 4; 11; 16; 23; 4; 11; 16; 23;
    6; 10; 15; 21; 6; 10; 15; 21; 6; 10; 15; 21; 6; 10; 15; 21 ].

Definition word_at (l : list Z) (i : Z) : Z := nth (Z.to_nat i) l 0.

Record digest_state := State { sA : Z; sB : Z; sC : Z; sD : Z }.

Definition init : digest_state :=
  State 1732584193 4023233417 2562383102 271733878.

(** One of the 64 operations of a block. *)
Definition operation (M : list Z) (st : digest_state) (i : Z) : digest_state :=
  let '(State a b c d) := st in
  let '(f, g) :=
    if i <? 16 then (Z.lor (Z.land b c) (Z.land (not32 b) d), i)
    else if i <? 32 then
      (Z.lor (Z.land d b) (Z.land (not32 d) c), (5 * i + 1) mod 16)
    else if i <? 48 then (Z.lxor b (Z.lxor c d), (3 * i + 5) mod 16)
    else (Z.lxor c (Z.lor b (not32 d)), (7 * i) mod 16) in
  let f' := add32 (add32 (add32 f a) (word_at K i)) (word_at M g) in
  State d (add32 b (rotl32 f' (word_at S i))) b c.

Definition rounds : list Z := map Z.of_nat (seq 0 64).

Definition block (st : digest_state) (M : list Z) : digest_state :=
  let '(State a b c d) := fold_left (operation M) rounds st in
  State (add32 (sA st) a) (add32 (sB st) b) (add32 (sC st) c)
        (add32 (sD st) d).

(** Little-endian bytes of an integer. *)
Fixpoint le_bytes (n : nat) (x : Z) : list Z :=
  match n with
  | O => []
  | Datatypes.S n' => Z.land x 255 :: le_bytes n' (Z.shiftr x 8)
  end.

Fixpoint le_word (bs : list Z) : Z :=
  match bs with
  | [] => 0
  | b :: rest => Z.lor b (Z.shiftl (le_word rest) 8)
  end.

Definition pad (msg : list Z) : list Z :=
  let len := Z.of_nat (length msg) in
  let zeros := Z.to_nat ((55 - len) mod 64) in
  msg ++ [128] ++ repeat 0 zeros ++ le_bytes 8 ((8 * len) mod 2 ^ 64).

(** Cut a byte sequence into chunks of [n] bytes; [fuel] bounds the number
    of chunks. *)
Fixpoint chunks (fuel n : nat) (bs : list Z) : list (list Z) :=
  match fuel, bs with
  | O, _ | _, [] => []
  | Datatypes.S fuel', _ => firstn n bs :: chunks fuel' n (skipn n bs)
  end.

Definition words (blk : list Z) : list Z := map le_word (chunks 16 4 blk).

Definition hex_digit (x : Z) : ascii :=
  nth (Z.to_nat x) (list_ascii_of_string "0123456789abcdef") "0"%char.

Definition hex_byte (b : Z) : list ascii :=
  [hex_digit (Z.shiftr b 4); hex_digit (Z.land b 15)].

Definition hex (bs : list Z) : string :=
  string_of_list_ascii (concat (map hex_byte bs)).

Definition digest (msg : list Z) : list Z :=
  let padded := pad msg in
  let '(State a b c d) :=
    fold_left block (map words (chunks (length padded) 64 padded)) init in
  le_bytes 4 a ++ le_bytes 4 b ++ le_bytes 4 c ++ le_bytes 4 d.

(** The MD5 of a sequence of bytes. *)
Definition md5 (s : string) : string := hex (digest (JsString.bytes s)).

End MD5.

(** [md5] of [tiny-hashes/md5]: [encodeURI] throws a [URIError] when the
    string holds a surrogate with no partner. *)
Definition md5 (s : string) : Completion string :=
  if JsString.ill_formed s then Throws URIError else Returns (MD5.md5 s).

(** ** JavaScript values and [JSON.stringify]

    The argument of [createContentDigest] has a generic type. Values are
    modelled by the JSON-like fragment of JavaScript: [undefined], [null],
    booleans, the numbers that are safe integers (for which
    [Number::toString] is the decimal numeral), strings, arrays, and plain
    objects given by their own enumerable properties in enumeration
    order. Other numbers (fractions, larger magnitudes, [NaN], the
    infinities) and values that [JSON.stringify] rejects are outside the
    fragment. *)

(** [Number.MAX_SAFE_INTEGER] *)
Definition MAX_SAFE_INTEGER : Z := 9007199254740991.

(** [Number.isSafeInteger] on an integer. *)
Definition isSafeInteger (z : Z) : bool :=
  (- MAX_SAFE_INTEGER <=? z) && (z <=? MAX_SAFE_INTEGER).

#[warnings="-register-all"]
Inductive JsValue : Type :=
  | JUndefined
  | JNull
  | JBool (b : bool)
  | JNumber (z : Z) (safe : Is_true (isSafeInteger z))
  | JString (s : string)
  | JArray (items : list JsValue)
  | JObject (props : list (string * JsValue)).

Module JSON.

Definition hex4 (n : Z) : string :=
  string_of_list_ascii
    (map MD5.hex_digit
         [Z.land (Z.shiftr n 12) 15; Z.land (Z.shiftr n 8) 15;
          Z.land (Z.shiftr n 4) 15; Z.land n 15]).

Definition backslash : ascii := ascii_of_nat 92.
Definition double_quote : ascii := ascii_of_nat 34.

(** [UnicodeEscape] *)
Definition unicode_escape (n : Z) : string :=
  String backslash ("u" ++ hex4 n).

(** One code unit of [QuoteJSONString]. *)
Definition escape (a : ascii) : string :=
  let n := JsString.code a in
  if n =? 8 then String backslash "b"
  else if n =? 9 then String backslash "t"
  else if n =? 10 then String backslash "n"
  else if n =? 12 then String backslash "f"
  else if n =? 13 then String backslash "r"
  else if n =? 34 then String backslash (String double_quote EmptyString)
  else if n =? 92 then String backslash (String backslash EmptyString)
  else if n <? 32 then unicode_escape n
  else String a EmptyString.

(** [QuoteJSONString] goes through the code points of the string: a
    surrogate with no partner is written as its [UnicodeEscape]. *)
Fixpoint escape_all (s : string) : string :=
  match s with
  | EmptyString => EmptyString
  | String a rest =>
      match rest with
      | String b (String c rest') =>
          if JsString.surrogate a b c
          then unicode_escape (JsString.code_point3 a b c) ++ escape_all rest'
          else escape a ++ escape_all rest
      | _ => escape a ++ escape_all rest
      end
  end.

Definition quote (s : string) : string :=
  String double_quote (escape_all s ++ String double_quote EmptyString).

(** [SerializeJSONProperty]: [None] stands for the result [undefined]. An
    [undefined] array element is written [null]; a property whose value
    is [undefined] is left out. *)
Fixpoint serialize (v : JsValue) : option string :=
  match v with
  | JUndefined => None
  | JNull => Some "null"
  | JBool b => Some (if b then "true" else "false")
  | JNumber z _ => Some (pretty.pretty z)
  | JString s => Some (quote s)
  | JArray items =>
      Some ("[" ++ JsString.join ","
                     (map (fun x => default "null" (serialize x)) items)
                ++ "]")
  | JObject props =>
      Some ("{" ++ JsString.join ","
                     (omap (fun kv =>
                              match serialize (snd kv) with
                              | Some s => Some (quote (fst kv) ++ ":" ++ s)
                              | None => None
                              end) props)
                ++ "}")
  end.

Definition stringify (v : JsValue) : option string := serialize v.

End JSON.

(** ** Identity and digest helpers *)

(** [const createNodeId = (input: string): string => md5(input)] *)
Definition createNodeId (input : string) : Completion string := md5 input.

(** [const createContentDigest = <T>(input: T): string =>
     md5(JSON.stringify(input))]. When [JSON.stringify] yields [undefined]
    the hashed text is the string conversion of [undefined]. *)
Definition createContentDigest (input : JsValue) : Completion string :=
  md5 (default "undefined" (JSON.stringify input)).

Local Close Scope Z_scope.
Local Open Scope list_scope.

(** ** Collaborators

    The runtime is written against types of [@prismicio/types],
    [@prismicio/helpers] and [@imgix/gatsby], and against modules of the
    package that sit beside it ([../types], [../constants], [./normalize],
    [./normalizers], [./typePaths]). They are taken as parameters. *)

(** Modelled from the spec: the [TypePath] record of [../types], an ordered
    sequence of field names with the declared field-type tag. *)
Record TypePath := { path : list string; type : string }.

Definition TransformFieldNameFn := string -> string.

Class Types := {
  CustomTypeModel : Type;
  SharedSliceModel : Type;
  PrismicDocument : Type;
  (** [document.type] *)
  document_type : PrismicDocument -> string;
  NormalizedDocumentValue : Type;
  (** [node.prismicId] *)
  prismicId : NormalizedDocumentValue -> string;
  LinkResolverFunction : Type;
  HTMLSerializer : Type;
  ImgixUrlParams : Type;
}.

(** [gatsby-node-helpers] is an external dependency.
    [createNodeHelpers(params)] returns an object of functions that are
    closures over the parameters; the object is modelled by the parameters
    its functions hold. Of these functions the one that makes identifiers
    is given: [createNodeId(parts)] calls the [createNodeId] parameter on
    the type prefix and the parts, joined by single spaces. ([parts] is a
    string or an array of strings; a string stands for the array holding
    it.) *)
Module NodeHelpers.

(** [CreateNodeHelpersParams] *)
Module Params.
Record t := {
  typePrefix : string;
  fieldPrefix : string;
  createNodeId : string -> Completion string;
  createContentDigest : JsValue -> Completion string;
}.
End Params.

Record t := { params : Params.t }.

Definition createNodeHelpers (params : Params.t) : t :=
  {| params := params |}.

(** [helpers.createNodeId(parts)] *)
Definition createNodeId (helpers : t) (parts : list string)
    : Completion string :=
  Params.createNodeId (params helpers)
    (JsString.join " " (Params.typePrefix (params helpers) :: parts)).

End NodeHelpers.

(** The argument of [normalize] of [./normalize]. *)
Module NormalizeConfig.
Record t `{Types} := {
  value : PrismicDocument;
  path : list string;
  getNode : string -> option NormalizedDocumentValue;
  getTypePath : list string -> option TypePath;
  nodeHelpers : NodeHelpers.t;
  linkResolver : option LinkResolverFunction;
  htmlSerializer : option HTMLSerializer;
  imageImgixParams : ImgixUrlParams;
  imagePlaceholderImgixParams : ImgixUrlParams;
  transformFieldName : TransformFieldNameFn;
}.
End NormalizeConfig.

Class Modules `{Types} := {
  DEFAULT_IMGIX_PARAMS : ImgixUrlParams;
  DEFAULT_PLACEHOLDER_IMGIX_PARAMS : ImgixUrlParams;
  GLOBAL_TYPE_PREFIX : string;
  customTypeModelToTypePaths :
  CustomTypeModel -> TransformFieldNameFn -> list TypePath;
  sharedSliceModelToTypePaths :
  SharedSliceModel -> TransformFieldNameFn -> list TypePath;
  normalize : NormalizeConfig.t -> NormalizedDocumentValue;
}.

(** [export type RuntimeConfig]: every field is optional. *)
Module RuntimeConfig.
Record t `{Types} := {
  typePrefix : option string;
  linkResolver : option LinkResolverFunction;
  imageImgixParams : option ImgixUrlParams;
  imagePlaceholderImgixParams : option ImgixUrlParams;
  htmlSerializer : option HTMLSerializer;
  transformFieldName : option TransformFieldNameFn;
}.
End RuntimeConfig.

(** The type of the [config] field: [RuntimeConfig] with [imageImgixParams],
    [imagePlaceholderImgixParams] and [transformFieldName] required. *)
Module Config.
Record t `{Types} := {
  typePrefix : option string;
  linkResolver : option LinkResolverFunction;
  imageImgixParams : ImgixUrlParams;
  imagePlaceholderImgixParams : ImgixUrlParams;
  htmlSerializer : option HTMLSerializer;
  transformFieldName : TransformFieldNameFn;
}.
End Config.

(** ** The store

    A subscriber callback is a function object; [!==] compares references,
    so a callback is named by its reference. The [subscribers] field holds a
    reference to an array object on the heap: the [for ... of] loop of
    [#notifySubscribers] reads that array object while callbacks run and may
    assign the field. [nodes] and [typePaths] are only read by [find] and
    [some], whose predicates do not call back, and are held as values. *)

Abbreviation SubscriberFn := nat (only parsing).
Abbreviation Addr := nat (only parsing).
Abbreviation Heap := (list (list SubscriberFn)) (only parsing).

Module Runtime.

Record t `{Types} := {
  nodes : list NormalizedDocumentValue;
  typePaths : list TypePath;
  subscribers : Addr;
  config : Config.t;
  nodeHelpers : NodeHelpers.t;
}.

Record World `{Types} := { this : t; heap : Heap }.

(** What a callback asks of the runtime when it runs. *)
Inductive Call `{Types} : Type :=
  | Subscribe (callback : SubscriberFn)
  | Unsubscribe (callback : SubscriberFn)
  | RegisterCustomTypeModel (model : CustomTypeModel)
  | RegisterCustomTypeModels (models : list CustomTypeModel)
  | RegisterSharedSliceModel (model : SharedSliceModel)
  | RegisterSharedSliceModels (models : list SharedSliceModel)
  | RegisterTypePaths (typePaths : list TypePath)
  | RegisterDocument (document : PrismicDocument)
  | RegisterDocuments (documents : list PrismicDocument).

(** The record of one call [subscriber()]: the callback, the world it was
    entered with, and the callbacks invoked while it ran. *)
#[warnings="-register-all"]
Inductive Invocation `{Types} : Type :=
  | Invoked (callback : SubscriberFn) (seen : World) (nested : list Invocation).

Definition callback_of `{Types} (i : Invocation) : SubscriberFn :=
  match i with Invoked cb _ _ => cb end.

Definition seen_by `{Types} (i : Invocation) : World :=
  match i with Invoked _ w _ => w end.

Definition nested_in `{Types} (i : Invocation) : list Invocation :=
  match i with Invoked _ _ l => l end.

(** ** The monad of runtime methods

    A method takes the world to a result, the new world and the callbacks it
    invoked, in order. [None] stands for a notification that does not
    return (callbacks that register without bound). Callbacks return
    normally. *)

Definition M `{Types} (A : Type) : Type :=
  World -> option (A * World * list Invocation).

Section Monad.
Context `{Types}.

Definition ret {A} (a : A) : M A := fun w => Some (a, w, []).

Definition bind {A B} (m : M A) (k : A -> M B) : M B :=
  fun w =>
    match m w with
    | None => None
    | Some (a, w1, log1) =>
        match k a w1 with
        | None => None
        | Some (b, w2, log2) => Some (b, w2, log1 ++ log2)
        end
    end.

Definition diverge {A} : M A := fun _ => None.

(** [this] *)
Definition self : M t := fun w => Some (this w, w, []).

(** Assignment to fields of [this]. *)
Definition assign (f : t -> t) : M unit :=
  fun w => Some (tt, {| this := f (this w); heap := heap w |}, []).

(** The elements of the array object at [a]. *)
Definition elements (h : Heap) (a : Addr) : list SubscriberFn :=
  default [] (h !! a).

Definition read (a : Addr) : M (list SubscriberFn) :=
  fun w => Some (elements (heap w) a, w, []).

(** A new array object. *)
Definition alloc (xs : list SubscriberFn) : M Addr :=
  fun w =>
    Some (length (heap w), {| this := this w; heap := heap w ++ [xs] |}, []).

End Monad.

Notation "'let!' x ':=' m 'in' k" := (bind m (fun x => k))
  (at level 10, x name, m at level 100, k at level 200).
Notation "m ';;' k" := (bind m (fun _ => k))
  (at level 100, k at level 200, right associativity).

Section ForEach.
Context `{Types}.

(** Run [f] on each element, in order. *)
Fixpoint for_each {A} (f : A -> M unit) (l : list A) : M unit :=
  match l with
  | [] => ret tt
  | x :: rest => f x ;; for_each f rest
  end.

End ForEach.

(** ** The class [Runtime] *)

Section Class.
Context `{Types} `{!Modules}.

(** The code of the callbacks: what the function object [cb] asks of the
    runtime when it is called in world [w]. *)
Variable behaviour : SubscriberFn -> World -> list Call.

(** [constructor(config: RuntimeConfig = {})] *)
Definition constructor (config : RuntimeConfig.t) : World :=
  {| this :=
       {| nodes := [];
          typePaths := [];
          subscribers := 0;
          config :=
            {| Config.typePrefix := RuntimeConfig.typePrefix config;
               Config.linkResolver := RuntimeConfig.linkResolver config;
               Config.imageImgixParams :=
                 default DEFAULT_IMGIX_PARAMS
                         (RuntimeConfig.imageImgixParams config);
               Config.imagePlaceholderImgixParams :=
                 default DEFAULT_PLACEHOLDER_IMGIX_PARAMS
                         (RuntimeConfig.imagePlaceholderImgixParams config);
               Config.htmlSerializer := RuntimeConfig.htmlSerializer config;
               Config.transformFieldName :=
                 default (JsString.replace_all "-" "_")
                         (RuntimeConfig.transformFieldName config) |};
          nodeHelpers :=
            NodeHelpers.createNodeHelpers
              {| NodeHelpers.Params.typePrefix :=
                   JsString.join " "
                     (filter (fun s => s <> EmptyString)
                        (GLOBAL_TYPE_PREFIX
                           :: option_list (RuntimeConfig.typePrefix config)));
                 NodeHelpers.Params.fieldPrefix := GLOBAL_TYPE_PREFIX;
                 NodeHelpers.Params.createNodeId := createNodeId;
                 NodeHelpers.Params.createContentDigest :=
                   createContentDigest |} |};
     heap := [[]] |}.

(** [export const createRuntime] *)
Definition createRuntime (config : RuntimeConfig.t) : World :=
  constructor config.

Definition with_subscribers (a : Addr) (r : t) : t :=
  {| nodes := nodes r; typePaths := typePaths r; subscribers := a;
     config := config r; nodeHelpers := nodeHelpers r |}.

Definition with_typePaths (l : list TypePath) (r : t) : t :=
  {| nodes := nodes r; typePaths := l; subscribers := subscribers r;
     config := config r; nodeHelpers := nodeHelpers r |}.

Definition with_nodes (l : list NormalizedDocumentValue) (r : t) : t :=
  {| nodes := l; typePaths := typePaths r; subscribers := subscribers r;
     config := config r; nodeHelpers := nodeHelpers r |}.

(** [getNode(id)]: [Array.prototype.find] *)
Definition getNode (r : t) (id : string) : option NormalizedDocumentValue :=
  List.find (fun node => String.eqb (prismicId node) id) (nodes r).

(** [hasNode(id)]: [Array.prototype.some] *)
Definition hasNode (r : t) (id : string) : bool :=
  existsb (fun node => String.eqb (prismicId node) id) (nodes r).

(** [getTypePath(path)] *)
Definition getTypePath (r : t) (p : list string) : option TypePath :=
  List.find
    (fun typePath =>
       String.eqb (JsString.join "__SEPARATOR__" (path typePath))
                  (JsString.join "__SEPARATOR__" p))
    (typePaths r).

(** [normalize(value, path)] *)
Definition normalize (r : t) (value : PrismicDocument)
  (p : list string) : NormalizedDocumentValue :=
  normalize
    {| NormalizeConfig.value := value;
       NormalizeConfig.path := p;
       NormalizeConfig.getNode := getNode r;
       NormalizeConfig.getTypePath := getTypePath r;
       NormalizeConfig.nodeHelpers := nodeHelpers r;
       NormalizeConfig.linkResolver := Config.linkResolver (config r);
       NormalizeConfig.htmlSerializer := Config.htmlSerializer (config r);
       NormalizeConfig.imageImgixParams := Config.imageImgixParams (config r);
       NormalizeConfig.imagePlaceholderImgixParams :=
         Config.imagePlaceholderImgixParams (config r);
       NormalizeConfig.transformFieldName :=
         Config.transformFieldName (config r) |}.

(** [normalizeDocument(document)] *)
Definition normalizeDocument (r : t) (document : PrismicDocument)
  : NormalizedDocumentValue :=
  normalize r document [document_type document].

(** [subscribe(callback)]: the spread builds a new array. *)
Definition subscribe (callback : SubscriberFn) : M unit :=
  let! r := self in
  let! old := read (subscribers r) in
  let! a := alloc (old ++ [callback]) in
  assign (with_subscribers a).

(** [unsubscribe(callback)]: [filter] builds a new array. *)
Definition unsubscribe (callback : SubscriberFn) : M unit :=
  let! r := self in
  let! old := read (subscribers r) in
  let! a :=
    alloc (filter (fun registeredCallback => registeredCallback <> callback)
                  old) in
  assign (with_subscribers a).

Section Methods.
(** The private method [#notifySubscribers], tied below. *)
Variable notifySubscribers : M unit.

Definition registerCustomTypeModel (model : CustomTypeModel)
  : M (list TypePath) :=
  let! r := self in
  let typePaths' :=
    customTypeModelToTypePaths model
      (Config.transformFieldName (config r)) in
  assign (fun r => with_typePaths (typePaths r ++ typePaths') r) ;;
  notifySubscribers ;;
  ret typePaths'.

Definition registerCustomTypeModels (models : list CustomTypeModel)
  : M (list TypePath) :=
  let! r := self in
  let typePaths' :=
    flat_map
      (fun model =>
         customTypeModelToTypePaths model
           (Config.transformFieldName (config r)))
      models in
  assign (fun r => with_typePaths (typePaths r ++ typePaths') r) ;;
  notifySubscribers ;;
  ret typePaths'.

Definition registerSharedSliceModel (model : SharedSliceModel)
  : M (list TypePath) :=
  let! r := self in
  let typePaths' :=
    sharedSliceModelToTypePaths model
      (Config.transformFieldName (config r)) in
  assign (fun r => with_typePaths (typePaths r ++ typePaths') r) ;;
  notifySubscribers ;;
  ret typePaths'.

Definition registerSharedSliceModels (models : list SharedSliceModel)
  : M (list TypePath) :=
  let! r := self in
  let typePaths' :=
    flat_map
      (fun model =>
         sharedSliceModelToTypePaths model
           (Config.transformFieldName (config r)))
      models in
  assign (fun r => with_typePaths (typePaths r ++ typePaths') r) ;;
  notifySubscribers ;;
  ret typePaths'.

Definition registerTypePaths (typePaths' : list TypePath) : M unit :=
  assign (fun r => with_typePaths (typePaths r ++ typePaths') r) ;;
  notifySubscribers.

Definition registerDocument (document : PrismicDocument)
  : M NormalizedDocumentValue :=
  let! r := self in
  let normalizedDocument := normalizeDocument r document in
  assign (fun r => with_nodes (nodes r ++ [normalizedDocument]) r) ;;
  notifySubscribers ;;
  ret normalizedDocument.

Definition registerDocuments (documents : list PrismicDocument)
  : M (list NormalizedDocumentValue) :=
  let! r := self in
  let nodes' := map (fun document => normalizeDocument r document)
                    documents in
  assign (fun r => with_nodes (nodes r ++ nodes') r) ;;
  notifySubscribers ;;
  ret nodes'.

(** A call made by a callback; the callback drops the result. *)
Definition perform (c : Call) : M unit :=
  match c with
  | Subscribe callback => subscribe callback
  | Unsubscribe callback => unsubscribe callback
  | RegisterCustomTypeModel model =>
      registerCustomTypeModel model ;; ret tt
  | RegisterCustomTypeModels models =>
      registerCustomTypeModels models ;; ret tt
  | RegisterSharedSliceModel model =>
      registerSharedSliceModel model ;; ret tt
  | RegisterSharedSliceModels models =>
      registerSharedSliceModels models ;; ret tt
  | RegisterTypePaths typePaths' => registerTypePaths typePaths'
  | RegisterDocument document => registerDocument document ;; ret tt
  | RegisterDocuments documents => registerDocuments documents ;; ret tt
  end.

(** The call [subscriber()]. *)
Definition call (subscriber : SubscriberFn) : M unit :=
  fun w =>
    match for_each perform (behaviour subscriber w) w with
    | None => None
    | Some (_, w', log) => Some (tt, w', [Invoked subscriber w log])
    end.

End Methods.

(** [for (const subscriber of arr) subscriber()], from index [i] on. The
    array iterator reads the array object [arr] at every step. [fuel]
    bounds the calls that are open at once and the steps of a loop. *)
Fixpoint notifyFrom (fuel : nat) (arr : Addr) (i : nat) : M unit :=
  match fuel with
  | O => diverge
  | S fuel' =>
      let! xs := read arr in
      match xs !! i with
      | None => ret tt
      | Some subscriber =>
          call (let! r := self in notifyFrom fuel' (subscribers r) 0)
               subscriber ;;
          notifyFrom fuel' arr (S i)
      end
  end.

(** [#notifySubscribers()] *)
Definition notifySubscribers (fuel : nat) : M unit :=
  let! r := self in
  notifyFrom fuel (subscribers r) 0.

End Class.

End Runtime.

(** The node [normalize] makes of a document at the path holding its type
    name, with the lookups of the runtime [r]. *)
Definition normalized_at_type `{Types} `{!Modules} (r : Runtime.t)
  (document : PrismicDocument) (node : NormalizedDocumentValue) : Prop :=
  exists cfg : NormalizeConfig.t,
    node = normalize cfg
    /\ NormalizeConfig.value cfg = document
    /\ NormalizeConfig.path cfg = [document_type document]
    /\ NormalizeConfig.getNode cfg = Runtime.getNode r
    /\ NormalizeConfig.getTypePath cfg = Runtime.getTypePath r
    /\ NormalizeConfig.nodeHelpers cfg = Runtime.nodeHelpers r.

Import Runtime.

(** ** Vocabulary of the statements *)

Section Vocabulary.
Context `{Types} `{!Modules}.
Variable behaviour : SubscriberFn -> World -> list Call.

(** The callbacks subscribed in a world: the array [this.subscribers]. *)
Definition subscribed (w : World) : list SubscriberFn :=
  elements (heap w) (subscribers (this w)).

(** The [subscribers] field refers to an allocated array. *)
Definition well_formed (w : World) : Prop :=
  subscribers (this w) < length (heap w).

(** The calls that end with [this.#notifySubscribers()]. *)
Definition mutating (c : Call) : bool :=
  match c with
  | Subscribe _ | Unsubscribe _ => false
  | _ => true
  end.

(** The type paths a call appends to [typePaths]. *)
Definition new_typePaths (c : Call) (r : t) : list TypePath :=
  match c with
  | RegisterCustomTypeModel model =>
      customTypeModelToTypePaths model (Config.transformFieldName (config r))
  | RegisterCustomTypeModels models =>
      flat_map (fun model =>
                  customTypeModelToTypePaths model
                    (Config.transformFieldName (config r))) models
  | RegisterSharedSliceModel model =>
      sharedSliceModelToTypePaths model (Config.transformFieldName (config r))
  | RegisterSharedSliceModels models =>
      flat_map (fun model =>
                  sharedSliceModelToTypePaths model
                    (Config.transformFieldName (config r))) models
  | RegisterTypePaths typePaths' => typePaths'
  | _ => []
  end.

(** The nodes a call appends to [nodes]. *)
Definition new_nodes (c : Call) (r : t) : list NormalizedDocumentValue :=
  match c with
  | RegisterDocument document => [normalizeDocument r document]
  | RegisterDocuments documents => map (normalizeDocument r) documents
  | _ => []
  end.

(** The array a call assigns to [subscribers], if it assigns one. *)
Definition new_subscribers (c : Call) (old : list SubscriberFn)
  : option (list SubscriberFn) :=
  match c with
  | Subscribe callback => Some (old ++ [callback])
  | Unsubscribe callback => Some (filter (fun x => x <> callback) old)
  | _ => None
  end.

(** The world once the assignments of a call are done, before any callback
    runs. *)
Definition commit (c : Call) (w : World) : World :=
  let r := this w in
  match new_subscribers c (subscribed w) with
  | Some xs =>
      {| this := with_subscribers (length (heap w)) r;
         heap := heap w ++ [xs] |}
  | None =>
      {| this :=
           {| nodes := nodes r ++ new_nodes c r;
              typePaths := typePaths r ++ new_typePaths c r;
              subscribers := subscribers r;
              config := config r;
              nodeHelpers := nodeHelpers r |};
         heap := heap w |}
  end.

(** The commits of a sequence of calls, one after the other. *)
Definition commits (cs : list Call) (w : World) : World :=
  fold_left (fun w c => commit c w) cs w.

(** [w'] extends [w]: array objects, nodes and type paths are kept, in
    order, and the configuration is the same. *)
Definition extends (w w' : World) : Prop :=
  heap w `prefix_of` heap w'
  /\ nodes (this w) `prefix_of` nodes (this w')
  /\ typePaths (this w) `prefix_of` typePaths (this w')
  /\ config (this w') = config (this w)
  /\ nodeHelpers (this w') = nodeHelpers (this w).

(** A method keeps the relation [R]: from a well-formed world it ends in a
    well-formed world related to the first. *)
Definition keeps (R : World -> World -> Prop) {A} (m : M A) : Prop :=
  forall w a w' log,
    well_formed w -> m w = Some (a, w', log) -> well_formed w' /\ R w w'.

(** The subscribers of [w] are still subscribed in [w'], first and in
    order. *)
Definition subscribers_kept (w w' : World) : Prop :=
  subscribed w `prefix_of` subscribed w'.

Definition is_unsubscribe (c : Call) : Prop :=
  match c with Unsubscribe _ => True | _ => False end.

(** Calls that notify nobody: [subscribe] and [unsubscribe]. *)
Definition quiet (c : Call) : Prop := mutating c = false.

(** A callback that only subscribes and unsubscribes. *)
Definition quiet_callback (cb : SubscriberFn) : Prop :=
  forall w, Forall quiet (behaviour cb w).

(** A callback that never calls the runtime. *)
Definition inert (cb : SubscriberFn) : Prop :=
  forall w, behaviour cb w = [].

(** A notification over [l] when no callback of [l] registers anything. *)
Fixpoint quiet_notify (l : list SubscriberFn) (w : World)
  : World * list Invocation :=
  match l with
  | [] => (w, [])
  | cb :: rest =>
      let '(w', log) := quiet_notify rest (commits (behaviour cb w) w) in
      (w', Invoked cb w [] :: log)
  end.

(** [m2] returns whatever [m1] returns. *)
Definition below {A} (m1 m2 : M A) : Prop :=
  forall w r, m1 w = Some r -> m2 w = Some r.

(** [path.join('__SEPARATOR__')] *)
Definition joined (p : list string) : string :=
  JsString.join "__SEPARATOR__" p.

(** The lookup as the specification words it: the first registered entry
    whose path is component-wise equal to the query. *)
Definition lookup_componentwise (registry : list TypePath)
  (p : list string) : option TypePath :=
  List.find (fun typePath => bool_decide (path typePath = p)) registry.

End Vocabulary.

(** ** Vocabulary of the further statements *)

Section FurtherVocabulary.
Context `{Types} `{!Modules}.
Variable behaviour : SubscriberFn -> World -> list Call.

(** The first entry of a sequence of type paths whose joined path is the
    joined query: the lookup of [getTypePath] on that sequence. *)
Definition first_joined (registry : list TypePath) (p : list string)
  : option TypePath :=
  List.find (fun typePath =>
               String.eqb (joined (path typePath)) (joined p)) registry.

(** The first node of a sequence with the given identity. *)
Definition first_with_id (l : list NormalizedDocumentValue) (id : string)
  : option NormalizedDocumentValue :=
  List.find (fun node => String.eqb (prismicId node) id) l.

(** The log of a notification of callbacks that do not call the runtime. *)
Definition inert_log (w : World) (l : list SubscriberFn) : list Invocation :=
  map (fun cb => Invoked cb w []) l.

(** The calls that register nothing: a batch with no element. *)
Definition empty_batch (c : Call) : Prop :=
  c = RegisterTypePaths [] \/ c = RegisterDocuments []
  \/ c = RegisterCustomTypeModels [] \/ c = RegisterSharedSliceModels [].

(** A callback that begins every run with a call that notifies. *)
Definition always_registers (cb : SubscriberFn) : Prop :=
  forall w, exists c rest, behaviour cb w = c :: rest /\ mutating c = true.

End FurtherVocabulary.

(** The character replaced by the default [transformFieldName]. *)
Definition hyphen : ascii := "-"%char.

Definition hex_digits : list ascii :=
  list_ascii_of_string "0123456789abcdef".

(** A text of 32 lowercase hexadecimal digits. *)
Definition is_hex32 (s : string) : Prop :=
  String.length s = 32
  /\ Forall (fun a => a ∈ hex_digits) (list_ascii_of_string s).

(** A string that starts with a byte below 128, or is empty. *)
Definition starts_low (t : string) : Prop :=
  match t with
  | EmptyString => True
  | String a _ => (JsString.code a < 128)%Z
  end.

(** Every byte is below 128. *)
Definition low (s : string) : Prop :=
  Forall (fun a => (JsString.code a < 128)%Z) (list_ascii_of_string s).

(** Text that holds no surrogate and adds none to what it is put before. *)
Definition tidy (s : string) : Prop :=
  starts_low s
  /\ forall t, starts_low t ->
       JsString.ill_formed (String.append s t) = JsString.ill_formed t.


(** ** A concrete instance of the collaborators

    Used to run the runtime on examples: a model lists its fields with their
    type tags, a document carries its id and type, and a node keeps the id
    of its document with the path it was normalized at. *)

Module Fixture.

Record Model := { model_id : string; fields : list (string * string) }.

Record Document := { id : string; doc_type : string; data : JsValue }.

Record Node := { node_prismicId : string; node_path : list string;
                 node_known : list bool }.

Definition modelToTypePaths (m : Model) (f : TransformFieldNameFn)
    : list TypePath :=
  map (fun field => {| path := [model_id m; f (fst field)];
                       type := snd field |})
      (fields m).

#[export] Instance types : Types := {|
  CustomTypeModel := Model;
  SharedSliceModel := Model;
  PrismicDocument := Document;
  document_type := doc_type;
  NormalizedDocumentValue := Node;
  prismicId := node_prismicId;
  LinkResolverFunction := unit;
  HTMLSerializer := unit;
  ImgixUrlParams := list (string * string);
|}.

Definition normalizeFixture (cfg : NormalizeConfig.t) : Node :=
  {| node_prismicId := id (NormalizeConfig.value cfg);
     node_path := NormalizeConfig.path cfg;
     node_known :=
       [bool_decide (is_Some (NormalizeConfig.getTypePath cfg
                                (NormalizeConfig.path cfg)))] |}.

#[export] Instance modules : Modules :=
  Build_Modules types
    [("auto", "compress,format")] [("w", "100")] "Prismic"
    modelToTypePaths modelToTypePaths normalizeFixture.

Definition no_config : RuntimeConfig.t :=
  {| RuntimeConfig.typePrefix := None;
     RuntimeConfig.linkResolver := None;
     RuntimeConfig.imageImgixParams := None;
     RuntimeConfig.imagePlaceholderImgixParams := None;
     RuntimeConfig.htmlSerializer := None;
     RuntimeConfig.transformFieldName := None |}.

Definition page : Model :=
  {| model_id := "page"; fields := [("my-field", "Select")] |}.

(** Callbacks that never call the runtime. *)
Definition silent : SubscriberFn -> World -> list Call := fun _ _ => [].

(** Callback 1 subscribes callback 9, callback 2 unsubscribes callback 3,
    callback 4 unsubscribes itself and registers a type path. *)
Definition busy : SubscriberFn -> World -> list Call :=
  fun cb _ =>
    match cb with
    | 1 => [Subscribe 9]
    | 2 => [Unsubscribe 3]
    | 4 => [Unsubscribe 4;
            RegisterTypePaths [{| path := ["late"]; type := "Text" |}]]
    | _ => []
    end.

(** A script of calls from a new runtime. *)
Definition run (behaviour : SubscriberFn -> World -> list Call)
    (fuel : nat) (script : list Call) :=
  for_each (perform (notifySubscribers behaviour fuel)) script
           (createRuntime no_config).

Definition summary (behaviour : SubscriberFn -> World -> list Call)
    (fuel : nat) (script : list Call) :=
  match run behaviour fuel script with
  | None => None
  | Some (_, w, log) =>
      Some (map callback_of log,
            elements (heap w) (subscribers (this w)),
            map path (typePaths (this w)))
  end.

(** Inputs of the examples. *)
Definition select_ab : TypePath := {| path := ["a"; "b"]; type := "Select" |}.
Definition text_ab : TypePath := {| path := ["a"; "b"]; type := "Text" |}.

Definition doc1 : Document :=
  {| id := "doc1"; doc_type := "page"; data := JString "A" |}.

Definition doc2 : Document :=
  {| id := "doc2"; doc_type := "post"; data := JNull |}.

(** A new runtime with the given callbacks subscribed, in order. *)
Definition subscribed_world (callbacks : list SubscriberFn) : World :=
  commits (map Subscribe callbacks) (createRuntime no_config).

(** The world and the log of a script run from a new runtime. *)
Definition outcome (behaviour : SubscriberFn -> World -> list Call)
  (fuel : nat) (script : list Call) : World * list Invocation :=
  match run behaviour fuel script with
  | Some (_, w, log) => (w, log)
  | None => (createRuntime no_config, [])
  end.

(** Callback 6 registers on every run and stays subscribed. *)
Definition restless : SubscriberFn -> World -> list Call :=
  fun cb _ =>
    match cb with
    | 6 => [RegisterTypePaths [{| path := ["again"]; type := "Text" |}]]
    | _ => []
    end.

(** Callback 1, as long as the document [doc1] is not registered,
    subscribes callback 9 and registers the document. *)
Definition meddling : SubscriberFn -> World -> list Call :=
  fun cb w =>
    match cb with
    | 1 => if hasNode (this w) "doc1" then []
           else [Subscribe 9; RegisterDocument doc1]
    | _ => []
    end.

Definition post : Model :=
  {| model_id := "post"; fields := [("title", "Text"); ("sub-title", "Text")] |}.

(** The world and the log after one call. *)
Definition after (behaviour : SubscriberFn -> World -> list Call)
  (fuel : nat) (c : Call) (w : World) : World * list Invocation :=
  match perform (notifySubscribers behaviour fuel) c w with
  | Some (_, w', log) => (w', log)
  | None => (w, [])
  end.

End Fixture.

(** ** What a call commits before it notifies *)

Section Commit.
Context `{Types} `{!Modules}.

Lemma bind_Some {A B} (m : M A) (k : A -> M B) w b w2 log :
  bind m k w = Some (b, w2, log) <->
  exists a w1 log1 log2,
    m w = Some (a, w1, log1) /\ k a w1 = Some (b, w2, log2)
    /\ log = log1 ++ log2.
Proof.
  unfold bind. split.
  - destruct (m w) as [[[a w1] log1]|]; [|discriminate].
    destruct (k a w1) as [[[b' w2'] log2]|] eqn:Hk; [|discriminate].
    intros [= -> -> <-]. exists a, w1, log1, log2. auto.
  - intros (a & w1 & log1 & log2 & -> & -> & ->). reflexivity.
Qed.

Lemma perform_commit (notify : M unit) (c : Call) (w : World) :
  perform notify c w =
  if mutating c then notify (commit c w) else Some (tt, commit c w, []).
Proof.
  destruct c; simpl;
    unfold registerCustomTypeModel, registerCustomTypeModels,
      registerSharedSliceModel, registerSharedSliceModels, registerTypePaths,
      registerDocument, registerDocuments, subscribe, unsubscribe,
      bind, self, assign, ret, read, alloc, commit; simpl.
  all: try reflexivity.
  all: unfold with_typePaths, with_nodes; rewrite ?app_nil_r;
    destruct (notify _) as [[[[] w'] log]|]; simpl; rewrite ?app_nil_r;
    reflexivity.
Qed.

Lemma commit_well_formed c w : well_formed w -> well_formed (commit c w).
Proof.
  unfold well_formed, commit.
  destruct (new_subscribers c (subscribed w)); simpl; [|done].
  rewrite length_app. simpl. lia.
Qed.

End Commit.

Section Notification.
Context `{Types} `{!Modules}.
Variable behaviour : SubscriberFn -> World -> list Call.

Lemma notifyFrom_S fuel arr i w :
  notifyFrom behaviour (S fuel) arr i w =
  match elements (heap w) arr !! i with
  | None => Some (tt, w, [])
  | Some subscriber =>
      (call behaviour (notifySubscribers behaviour fuel) subscriber ;;
       notifyFrom behaviour fuel arr (S i)) w
  end.
Proof.
  simpl. unfold bind at 1. unfold read.
  destruct (elements (heap w) arr !! i); [|reflexivity].
  fold (notifySubscribers behaviour fuel).
  destruct (bind _ _ w) as [[[? ?] ?]|]; reflexivity.
Qed.

Lemma notifySubscribers_eq fuel w :
  notifySubscribers behaviour fuel w =
  notifyFrom behaviour fuel (subscribers (this w)) 0 w.
Proof.
  unfold notifySubscribers, bind, self.
  destruct (notifyFrom _ _ _ _ _) as [[[? ?] ?]|]; reflexivity.
Qed.

Section Preservation.
Variable R : World -> World -> Prop.
Variable allowed : Call -> Prop.
Hypothesis R_refl : forall w, R w w.
Hypothesis R_trans : forall a b c, R a b -> R b c -> R a c.
Hypothesis R_commit :
  forall c w, allowed c -> well_formed w -> R w (commit c w).
Hypothesis allowed_behaviour : forall cb w, Forall allowed (behaviour cb w).

Lemma keeps_perform notify c :
  allowed c -> keeps R notify -> keeps R (perform notify c).
Proof.
  intros Hc Hn w a w' log Hw. rewrite perform_commit.
  pose proof (commit_well_formed c w Hw) as Hw1.
  pose proof (R_commit c w Hc Hw) as HR.
  destruct (mutating c).
  - intros Hrun. destruct a. apply Hn in Hrun as [? ?]; eauto.
  - intros [= <- <-]. auto.
Qed.

Lemma keeps_for_each {A} (f : A -> M unit) l :
  Forall (fun x => keeps R (f x)) l -> keeps R (for_each f l).
Proof.
  induction 1 as [|x l Hx Hl IH]; intros w a w' log Hw; simpl.
  - intros [= <- <-]. auto.
  - intros (a1 & w1 & l1 & l2 & H1 & H2 & ->)%bind_Some.
    apply Hx in H1 as [Hw1 HR1]; [|done].
    apply IH in H2 as [Hw2 HR2]; eauto.
Qed.

Lemma keeps_call notify cb :
  keeps R notify -> keeps R (call behaviour notify cb).
Proof.
  intros Hn w a w' log Hw. unfold call.
  destruct (for_each _ _ w) as [[[u w1] l1]|] eqn:Hrun; [|discriminate].
  intros [= <- <-].
  eapply keeps_for_each in Hrun; [done| |done].
  eapply Forall_impl; [apply allowed_behaviour|].
  intros c Hc. by apply keeps_perform.
Qed.

Lemma keeps_notifyFrom fuel :
  forall arr i, keeps R (notifyFrom behaviour fuel arr i).
Proof.
  induction fuel as [|fuel IH]; intros arr i w a w' log Hw; [done|].
  rewrite notifyFrom_S.
  destruct (elements (heap w) arr !! i) as [cb|].
  - intros (a1 & w1 & l1 & l2 & H1 & H2 & ->)%bind_Some.
    eapply keeps_call in H1 as [Hw1 HR1]; [| |done].
    + apply IH in H2 as [? ?]; eauto.
    + intros v b v' lg Hv. rewrite notifySubscribers_eq. by apply IH.
  - intros [= <- <-]. auto.
Qed.

Lemma keeps_notifySubscribers fuel :
  keeps R (notifySubscribers behaviour fuel).
Proof.
  intros w a w' log Hw. rewrite notifySubscribers_eq.
  by apply keeps_notifyFrom.
Qed.

End Preservation.

Lemma extends_refl w : extends w w.
Proof. repeat split; reflexivity. Qed.

Lemma extends_trans a b c : extends a b -> extends b c -> extends a c.
Proof.
  intros (? & ? & ? & ? & ?) (? & ? & ? & ? & ?).
  repeat split; try (etrans; eassumption); congruence.
Qed.

Lemma extends_commit c w : extends w (commit c w).
Proof.
  unfold extends, commit.
  destruct (new_subscribers c (subscribed w)); simpl;
    repeat split; try reflexivity; apply prefix_app_r; reflexivity.
Qed.

Lemma extends_elements w w' a :
  extends w w' -> a < length (heap w) ->
  elements (heap w') a = elements (heap w) a.
Proof.
  intros (Hh & _) Ha. unfold elements.
  destruct (lookup_lt_is_Some_2 _ _ Ha) as [xs Hxs].
  rewrite Hxs. by rewrite (prefix_lookup_Some _ _ _ _ Hxs Hh).
Qed.

Lemma notifyFrom_extends fuel arr i w u w' log :
  well_formed w ->
  notifyFrom behaviour fuel arr i w = Some (u, w', log) ->
  well_formed w' /\ extends w w'.
Proof.
  apply (keeps_notifyFrom extends (fun _ => True)); auto using extends_refl.
  - apply extends_trans.
  - intros. apply extends_commit.
  - intros. apply Forall_forall. auto.
Qed.

Lemma call_extends fuel cb w u w' log :
  well_formed w ->
  call behaviour (notifySubscribers behaviour fuel) cb w = Some (u, w', log) ->
  well_formed w' /\ extends w w'.
Proof.
  apply (keeps_call extends (fun _ => True)); auto using extends_refl.
  - apply extends_trans.
  - intros. apply extends_commit.
  - intros. apply Forall_forall. auto.
  - intros v b v' lg Hv. rewrite notifySubscribers_eq.
    by apply notifyFrom_extends.
Qed.

(** The loop calls the elements the array had when the loop began, each
    once and in order, whatever the callbacks do. *)
Lemma notifyFrom_roots fuel :
  forall arr i w u w' log,
    well_formed w -> arr < length (heap w) ->
    notifyFrom behaviour fuel arr i w = Some (u, w', log) ->
    map callback_of log = drop i (elements (heap w) arr)
    /\ Forall (fun iv => extends w (seen_by iv)) log.
Proof.
  induction fuel as [|fuel IH]; intros arr i w u w' log Hw Ha; [done|].
  rewrite notifyFrom_S.
  destruct (elements (heap w) arr !! i) as [cb|] eqn:Hi.
  - intros (a1 & w1 & l1 & l2 & H1 & H2 & ->)%bind_Some.
    pose proof H1 as H1'. apply call_extends in H1' as [Hw1 He1]; [|done].
    assert (Ha1 : arr < length (heap w1)).
    { destruct He1 as (Hh & _). apply prefix_length in Hh. lia. }
    apply IH in H2 as [Hm Hs]; [|done..].
    rewrite (extends_elements w w1) in Hm by done.
    unfold call in H1.
    destruct (for_each _ _ w) as [[[? ?] ?]|]; [|discriminate].
    injection H1 as <- <- <-. simpl. split.
    + rewrite Hm. symmetry. by apply drop_S.
    + constructor; [apply extends_refl|].
      eapply Forall_impl; [exact Hs|].
      intros iv Hiv. by eapply extends_trans.
  - intros [= <- <- <-]. split; [|constructor].
    simpl. symmetry. apply drop_ge. by apply lookup_ge_None.
Qed.

(** *** Callbacks that only subscribe and unsubscribe *)

Lemma for_each_quiet notify cs : forall w,
  Forall quiet cs ->
  for_each (perform notify) cs w = Some (tt, commits cs w, []).
Proof.
  induction cs as [|c cs IH]; intros w Hq; [reflexivity|].
  inversion_clear Hq as [|? ? Hc Hcs]. simpl. unfold bind.
  rewrite perform_commit, Hc, (IH _ Hcs). reflexivity.
Qed.

Lemma call_quiet notify cb w :
  Forall quiet (behaviour cb w) ->
  call behaviour notify cb w
  = Some (tt, commits (behaviour cb w) w, [Invoked cb w []]).
Proof. intros Hq. unfold call. by rewrite for_each_quiet. Qed.

Lemma commits_extends cs : forall w,
  well_formed w -> well_formed (commits cs w) /\ extends w (commits cs w).
Proof.
  induction cs as [|c cs IH]; intros w Hw; simpl.
  - split; [done|apply extends_refl].
  - destruct (IH (commit c w)) as [? ?]; [by apply commit_well_formed|].
    split; [done|]. eapply extends_trans; [apply extends_commit|done].
Qed.

Lemma commit_quiet_frame c w :
  quiet c ->
  nodes (this (commit c w)) = nodes (this w)
  /\ typePaths (this (commit c w)) = typePaths (this w).
Proof. destruct c; try discriminate; intros _; split; reflexivity. Qed.

Lemma commits_quiet_frame cs : forall w,
  Forall quiet cs ->
  nodes (this (commits cs w)) = nodes (this w)
  /\ typePaths (this (commits cs w)) = typePaths (this w).
Proof.
  induction cs as [|c cs IH]; intros w Hq; simpl; [done|].
  inversion_clear Hq as [|? ? Hc Hcs].
  destruct (IH (commit c w) Hcs) as [-> ->]. by apply commit_quiet_frame.
Qed.

Lemma notifyFrom_quiet fuel :
  forall arr i w,
    well_formed w -> arr < length (heap w) ->
    Forall (quiet_callback behaviour) (drop i (elements (heap w) arr)) ->
    length (drop i (elements (heap w) arr)) < fuel ->
    notifyFrom behaviour fuel arr i w
    = Some (tt, (quiet_notify behaviour (drop i (elements (heap w) arr)) w).1,
            (quiet_notify behaviour (drop i (elements (heap w) arr)) w).2).
Proof.
  induction fuel as [|fuel IH]; intros arr i w Hw Ha Hq Hlen; [lia|].
  rewrite notifyFrom_S.
  destruct (elements (heap w) arr !! i) as [cb|] eqn:Hi.
  - rewrite (drop_S _ _ _ Hi) in Hq, Hlen |- *.
    inversion_clear Hq as [|? ? Hcb Hrest]. simpl in Hlen.
    unfold bind. rewrite call_quiet by apply Hcb.
    destruct (commits_extends (behaviour cb w) w Hw) as [Hw1 He1].
    assert (Ha1 : arr < length (heap (commits (behaviour cb w) w))).
    { destruct He1 as (Hh & _). apply prefix_length in Hh. lia. }
    pose proof (extends_elements _ _ _ He1 Ha) as Hel.
    rewrite IH; rewrite ?Hel; try done; try lia.
    simpl. destruct (quiet_notify _ _ _) as [w2 log2]. reflexivity.
  - rewrite drop_ge by (by apply lookup_ge_None). reflexivity.
Qed.

Lemma quiet_notify_spec l : forall w,
  well_formed w -> Forall (quiet_callback behaviour) l ->
  map callback_of (quiet_notify behaviour l w).2 = l
  /\ Forall (fun iv => nested_in iv = []
                       /\ nodes (this (seen_by iv)) = nodes (this w)
                       /\ typePaths (this (seen_by iv)) = typePaths (this w))
            (quiet_notify behaviour l w).2
  /\ nodes (this (quiet_notify behaviour l w).1) = nodes (this w)
  /\ typePaths (this (quiet_notify behaviour l w).1) = typePaths (this w)
  /\ well_formed (quiet_notify behaviour l w).1
  /\ extends w (quiet_notify behaviour l w).1.
Proof.
  induction l as [|cb l IH]; intros w Hw Hq; simpl.
  - repeat split; auto using extends_refl.
  - inversion_clear Hq as [|? ? Hcb Hl].
    destruct (commits_extends (behaviour cb w) w Hw) as [Hw1 He1].
    destruct (commits_quiet_frame (behaviour cb w) w (Hcb w)) as [Hn Ht].
    destruct (IH _ Hw1 Hl) as (Hm & Hs & Hn' & Ht' & Hw' & He').
    destruct (quiet_notify _ l _) as [w2 log2]. simpl in *.
    split; [congruence|]. split.
    { constructor; [simpl; auto|].
      eapply Forall_impl; [exact Hs|]. simpl.
      intros iv (? & ? & ?). repeat split; congruence. }
    split; [congruence|]. split; [congruence|]. split; [done|].
    by eapply extends_trans.
Qed.

(** *** Fuel *)

Lemma below_bind {A B} (m1 m2 : M A) (k1 k2 : A -> M B) :
  below m1 m2 -> (forall a, below (k1 a) (k2 a)) ->
  below (bind m1 k1) (bind m2 k2).
Proof.
  intros Hm Hk w [[b w2] log].
  intros (a & w1 & l1 & l2 & H1 & H2 & ->)%bind_Some.
  apply bind_Some. exists a, w1, l1, l2.
  split; [by apply Hm|]. split; [by apply Hk|done].
Qed.

Lemma below_perform (n1 n2 : M unit) c :
  below n1 n2 -> below (perform n1 c) (perform n2 c).
Proof.
  intros Hn w r. rewrite !perform_commit.
  destruct (mutating c); [apply Hn|done].
Qed.

Lemma below_for_each {A} (f g : A -> M unit) l :
  (forall x, below (f x) (g x)) -> below (for_each f l) (for_each g l).
Proof.
  intros Hfg. induction l as [|x l IH]; simpl.
  - by intros w r.
  - apply below_bind; auto.
Qed.

Lemma below_call (n1 n2 : M unit) cb :
  below n1 n2 -> below (call behaviour n1 cb) (call behaviour n2 cb).
Proof.
  intros Hn w r. unfold call.
  destruct (for_each (perform n1) _ w) as [[[u w1] l1]|] eqn:Hrun;
    [|discriminate].
  apply (below_for_each _ (perform n2)) in Hrun;
    [|intros c; by apply below_perform].
  by rewrite Hrun.
Qed.

(** More fuel does not change what a notification returns. *)
Lemma notifyFrom_fuel n : forall m arr i,
  n <= m ->
  below (notifyFrom behaviour n arr i) (notifyFrom behaviour m arr i).
Proof.
  induction n as [|n IH]; intros m arr i Hnm w r; [done|].
  destruct m as [|m]; [lia|].
  rewrite !notifyFrom_S.
  destruct (elements (heap w) arr !! i) as [cb|]; [|done].
  apply below_bind.
  - apply below_call. intros v q. rewrite !notifySubscribers_eq.
    apply IH. lia.
  - intros _. apply IH. lia.
Qed.

Lemma perform_fuel n m c w r :
  n <= m ->
  perform (notifySubscribers behaviour n) c w = Some r ->
  perform (notifySubscribers behaviour m) c w = Some r.
Proof.
  intros Hnm. apply below_perform. intros v q.
  rewrite !notifySubscribers_eq. by apply notifyFrom_fuel.
Qed.

End Notification.

(** ** Lookups *)

Section Lookups.
Context `{Types} `{!Modules}.

Lemma find_Some_first {A} (f : A -> bool) (l : list A) (x : A) :
  List.find f l = Some x <->
  exists before after,
    l = before ++ x :: after /\ f x = true
    /\ Forall (fun y => f y = false) before.
Proof.
  induction l as [|a l IH]; simpl.
  - split; [discriminate|].
    intros (before & after & Hl & _). by destruct before.
  - destruct (f a) eqn:Hfa.
    + split.
      * intros [= <-]. exists [], l. auto.
      * intros ([|b before] & after & Hl & Hx & Hb).
        -- by injection Hl as -> _.
        -- injection Hl as -> _. inversion_clear Hb. congruence.
    + rewrite IH. split.
      * intros (before & after & -> & Hx & Hb).
        exists (a :: before), after. auto.
      * intros ([|b before] & after & Hl & Hx & Hb).
        -- injection Hl as -> _. congruence.
        -- injection Hl as -> ->. inversion_clear Hb. eauto.
Qed.

Lemma find_None_all {A} (f : A -> bool) (l : list A) :
  List.find f l = None <-> Forall (fun y => f y = false) l.
Proof.
  induction l as [|a l IH]; simpl.
  - split; auto.
  - destruct (f a) eqn:Hfa.
    + split; [discriminate|]. inversion_clear 1. congruence.
    + rewrite IH. split; [by constructor|by inversion_clear 1].
Qed.

Lemma Forall_eqb_false {A} (key : A -> string) (k : string) (l : list A) :
  Forall (fun y => String.eqb (key y) k = false) l
  <-> Forall (fun y => key y <> k) l.
Proof. apply Forall_iff. intros y. apply String.eqb_neq. Qed.

(** C1 (as amended): [getTypePath] returns the first registered type path
    whose path, joined with the separator, is the joined query, and nothing
    when there is none. An entry whose path is the query itself is such an
    entry, so it is returned when no earlier entry has the same joined
    path: of two entries registered for one path the earlier is returned. *)
Theorem getTypePath_first_joined (r : t) (p : list string) :
  (forall typePath,
      getTypePath r p = Some typePath <->
      exists before after,
        typePaths r = before ++ typePath :: after
        /\ joined (path typePath) = joined p
        /\ Forall (fun e => joined (path e) <> joined p) before)
  /\ (getTypePath r p = None <->
      Forall (fun e => joined (path e) <> joined p) (typePaths r))
  /\ (forall before typePath after,
        typePaths r = before ++ typePath :: after ->
        path typePath = p ->
        Forall (fun e => joined (path e) <> joined p) before ->
        getTypePath r p = Some typePath).
Proof.
  unfold getTypePath. fold (joined p).
  assert (Hsome : forall typePath,
    List.find (fun e => String.eqb (JsString.join "__SEPARATOR__" (path e))
                                   (joined p)) (typePaths r) = Some typePath
    <-> exists before after,
        typePaths r = before ++ typePath :: after
        /\ joined (path typePath) = joined p
        /\ Forall (fun e => joined (path e) <> joined p) before).
  { intros typePath. rewrite find_Some_first.
    split; intros (before & after & Hl & Hx & Hb); exists before, after;
      (split; [done|]); split.
    - by apply String.eqb_eq.
    - by apply (Forall_eqb_false (fun e => joined (path e))) in Hb.
    - by apply String.eqb_eq.
    - by apply (Forall_eqb_false (fun e => joined (path e))). }
  split; [exact Hsome|]. split.
  - rewrite find_None_all.
    apply (Forall_eqb_false (fun e => joined (path e))).
  - intros before typePath after Hl Hp Hb. apply Hsome.
    exists before, after. by rewrite Hp.
Qed.

(** C8: [hasNode] answers [true] exactly when [getNode] finds a node, and
    the node [getNode] finds is the earliest registered one with that
    identity. *)
Theorem hasNode_iff_getNode (r : t) (id : string) :
  (hasNode r id = true <-> is_Some (getNode r id))
  /\ (hasNode r id = false <-> getNode r id = None)
  /\ (forall node,
        getNode r id = Some node <->
        exists before after,
          nodes r = before ++ node :: after
          /\ prismicId node = id
          /\ Forall (fun earlier => prismicId earlier <> id) before).
Proof.
  unfold hasNode, getNode.
  assert (Hnone :
    existsb (fun node => String.eqb (prismicId node) id) (nodes r) = false
    <-> List.find (fun node => String.eqb (prismicId node) id) (nodes r)
        = None).
  { rewrite find_None_all. induction (nodes r) as [|a l IH]; simpl.
    - split; auto.
    - rewrite orb_false_iff, IH. split.
      + intros [? ?]. by constructor.
      + by inversion_clear 1. }
  split; [|split; [exact Hnone|]].
  - rewrite <- not_eq_None_Some, <- Hnone. symmetry. apply not_false_iff_true.
  - intros node. rewrite find_Some_first.
    split; intros (before & after & Hl & Hx & Hb); exists before, after;
      (split; [done|]); split.
    + by apply String.eqb_eq.
    + by apply (Forall_eqb_false prismicId) in Hb.
    + by apply String.eqb_eq.
    + by apply (Forall_eqb_false prismicId).
Qed.

End Lookups.

(** ** Notification *)

Section Subscribers.
Context `{Types} `{!Modules}.
Variable behaviour : SubscriberFn -> World -> list Call.

Lemma subscribed_commit_mutating c w :
  mutating c = true -> subscribed (commit c w) = subscribed w.
Proof. by destruct c. Qed.

Lemma subscribed_commit_new c w xs :
  new_subscribers c (subscribed w) = Some xs ->
  subscribed (commit c w) = xs.
Proof.
  intros Hxs. unfold commit. rewrite Hxs. unfold subscribed at 1. simpl.
  unfold elements. by rewrite lookup_app_r, Nat.sub_diag by lia.
Qed.

Lemma subscribed_commit_subscribe cb w :
  subscribed (commit (Subscribe cb) w) = subscribed w ++ [cb].
Proof. by apply subscribed_commit_new. Qed.

Lemma subscribed_commit_unsubscribe cb w :
  subscribed (commit (Unsubscribe cb) w)
  = filter (fun x => x <> cb) (subscribed w).
Proof. by apply subscribed_commit_new. Qed.

Lemma notifySubscribers_roots fuel w u w' log :
  well_formed w ->
  notifySubscribers behaviour fuel w = Some (u, w', log) ->
  map callback_of log = subscribed w
  /\ Forall (fun iv => extends w (seen_by iv)) log
  /\ well_formed w' /\ extends w w'.
Proof.
  intros Hw. rewrite notifySubscribers_eq. intros Hrun.
  destruct (notifyFrom_roots behaviour fuel _ _ _ _ _ _ Hw Hw Hrun)
    as [Hm Hs].
  destruct (notifyFrom_extends behaviour fuel _ _ _ _ _ _ Hw Hrun).
  rewrite drop_0 in Hm. auto.
Qed.

Lemma notifySubscribers_quiet fuel w :
  well_formed w ->
  Forall (quiet_callback behaviour) (subscribed w) ->
  length (subscribed w) < fuel ->
  notifySubscribers behaviour fuel w
  = Some (tt, (quiet_notify behaviour (subscribed w) w).1,
          (quiet_notify behaviour (subscribed w) w).2).
Proof.
  intros Hw Hq Hlen. rewrite notifySubscribers_eq.
  pose proof (notifyFrom_quiet behaviour fuel (subscribers (this w)) 0 w Hw Hw)
    as Hrun.
  rewrite drop_0 in Hrun. by apply Hrun.
Qed.

(** The first callback of a notification is entered with the world the
    notification began in. *)
Lemma notifySubscribers_first fuel w u w' log iv :
  notifySubscribers behaviour fuel w = Some (u, w', log) ->
  head log = Some iv ->
  seen_by iv = w.
Proof.
  rewrite notifySubscribers_eq. destruct fuel as [|fuel]; [done|].
  rewrite notifyFrom_S.
  destruct (elements (heap w) (subscribers (this w)) !! 0) as [cb|].
  - intros (a1 & w1 & l1 & l2 & H1 & _ & ->)%bind_Some.
    unfold call in H1.
    destruct (for_each _ _ w) as [[[? ?] ?]|]; [|discriminate].
    injection H1 as _ _ <-. by intros [= <-].
  - by intros [= _ _ <-].
Qed.

Lemma perform_mutating_roots fuel c w u w' log :
  well_formed w ->
  mutating c = true ->
  perform (notifySubscribers behaviour fuel) c w = Some (u, w', log) ->
  map callback_of log = subscribed w
  /\ Forall (fun iv => extends (commit c w) (seen_by iv)) log
  /\ well_formed w' /\ extends (commit c w) w'.
Proof.
  intros Hw Hc. rewrite perform_commit, Hc. intros Hrun.
  rewrite <- (subscribed_commit_mutating c w Hc).
  apply (notifySubscribers_roots fuel _ u); [by apply commit_well_formed|done].
Qed.

Lemma perform_mutating_quiet fuel c w :
  well_formed w ->
  mutating c = true ->
  Forall (quiet_callback behaviour) (subscribed w) ->
  length (subscribed w) < fuel ->
  perform (notifySubscribers behaviour fuel) c w
  = Some (tt, (quiet_notify behaviour (subscribed w) (commit c w)).1,
          (quiet_notify behaviour (subscribed w) (commit c w)).2).
Proof.
  intros Hw Hc Hq Hlen. rewrite perform_commit, Hc.
  rewrite <- (subscribed_commit_mutating c w Hc) in Hq, Hlen |- *.
  apply notifySubscribers_quiet; [by apply commit_well_formed|done..].
Qed.

(** C2: a mutating call invokes the callbacks subscribed at the call, each
    once and in subscription order, after its own assignments: the first
    callback is entered with exactly the nodes and type paths of the call
    appended, and every callback with them in place. When the subscribed
    callbacks register nothing themselves the call returns, and every
    callback sees exactly the appended state. *)
Theorem mutation_notifies_subscribers (fuel : nat) (c : Call) (w : World) :
  well_formed w ->
  mutating c = true ->
  (forall u w' log,
      perform (notifySubscribers behaviour fuel) c w = Some (u, w', log) ->
      map callback_of log = subscribed w
      /\ (forall iv,
            head log = Some iv ->
            nodes (this (seen_by iv)) = nodes (this w) ++ new_nodes c (this w)
            /\ typePaths (this (seen_by iv))
               = typePaths (this w) ++ new_typePaths c (this w))
      /\ Forall (fun iv =>
                  (nodes (this w) ++ new_nodes c (this w))
                    `prefix_of` nodes (this (seen_by iv))
                  /\ (typePaths (this w) ++ new_typePaths c (this w))
                       `prefix_of` typePaths (this (seen_by iv))) log)
  /\ (Forall (quiet_callback behaviour) (subscribed w) ->
      length (subscribed w) < fuel ->
      exists w' log,
        perform (notifySubscribers behaviour fuel) c w = Some (tt, w', log)
        /\ map callback_of log = subscribed w
        /\ Forall (fun iv =>
                    nodes (this (seen_by iv))
                    = nodes (this w) ++ new_nodes c (this w)
                    /\ typePaths (this (seen_by iv))
                       = typePaths (this w) ++ new_typePaths c (this w)) log).
Proof.
  intros Hw Hc. rewrite perform_commit, Hc.
  pose proof (commit_well_formed c w Hw) as Hw1.
  pose proof (subscribed_commit_mutating c w Hc) as Hsub.
  assert (Hn : nodes (this (commit c w)) = nodes (this w) ++ new_nodes c (this w)
               /\ typePaths (this (commit c w))
                  = typePaths (this w) ++ new_typePaths c (this w)).
  { by destruct c. }
  destruct Hn as [Hn Ht]. split.
  - intros u w' log Hrun.
    destruct (notifySubscribers_roots _ _ _ _ _ Hw1 Hrun) as (Hm & Hs & _).
    rewrite Hsub in Hm. split; [done|]. split.
    + intros iv Hiv.
      rewrite (notifySubscribers_first _ _ _ _ _ _ Hrun Hiv). auto.
    + eapply Forall_impl; [exact Hs|].
      intros iv (_ & Hnodes & Hpaths & _). by rewrite <- Hn, <- Ht.
  - intros Hq Hlen. rewrite <- Hsub in Hq, Hlen.
    rewrite notifySubscribers_quiet by done.
    destruct (quiet_notify_spec behaviour _ _ Hw1 Hq)
      as (Hm & Hs & _).
    eexists _, _. split; [reflexivity|].
    split; [by rewrite Hm|].
    eapply Forall_impl; [exact Hs|].
    intros iv (_ & Hnodes & Hpaths). by rewrite <- Hn, <- Ht.
Qed.

(** The array object that [subscribers] referred to is untouched by
    [subscribe] and [unsubscribe]: they assign a new array. *)
Lemma commit_keeps_array c w :
  well_formed w ->
  elements (heap (commit c w)) (subscribers (this w)) = subscribed w.
Proof.
  intros Hw. apply extends_elements; [apply extends_commit|done].
Qed.

(** C10: the callbacks invoked for a mutating call are the elements the
    array [subscribers] had when the notification began. A callback that
    calls [subscribe] or [unsubscribe] assigns a new array to the field and
    leaves the array being iterated as it was, so the callbacks invoked
    are the same as if no callback had called either. *)
Theorem notification_iterates_initial_array (fuel : nat) (c : Call)
  (w : World) :
  well_formed w ->
  mutating c = true ->
  (forall callback v,
      well_formed v ->
      elements (heap (commit (Subscribe callback) v)) (subscribers (this v))
      = subscribed v
      /\ elements (heap (commit (Unsubscribe callback) v))
                  (subscribers (this v))
         = subscribed v
      /\ subscribers (this (commit (Subscribe callback) v)) = length (heap v)
      /\ subscribers (this (commit (Unsubscribe callback) v))
         = length (heap v))
  /\ (forall u w' log,
        perform (notifySubscribers behaviour fuel) c w = Some (u, w', log) ->
        map callback_of log = subscribed w
        /\ elements (heap w') (subscribers (this w)) = subscribed w)
  /\ (Forall (quiet_callback behaviour) (subscribed w) ->
      length (subscribed w) < fuel ->
      exists w' log,
        perform (notifySubscribers behaviour fuel) c w = Some (tt, w', log)
        /\ map callback_of log = subscribed w
        /\ Forall (fun iv => nested_in iv = []) log
        /\ elements (heap w') (subscribers (this w)) = subscribed w).
Proof.
  intros Hw Hc.
  pose proof (commit_well_formed c w Hw) as Hw1.
  pose proof (subscribed_commit_mutating c w Hc) as Hsub.
  assert (Hfield : subscribers (this (commit c w)) = subscribers (this w)).
  { by destruct c. }
  assert (Hkept : forall w',
             extends (commit c w) w' ->
             elements (heap w') (subscribers (this w)) = subscribed w).
  { intros w' He. rewrite <- Hfield, <- Hsub.
    by apply extends_elements. }
  split; [|split].
  - intros callback v Hv. auto using commit_keeps_array.
  - intros u w' log. rewrite perform_commit, Hc. intros Hrun.
    destruct (notifySubscribers_roots _ _ _ _ _ Hw1 Hrun)
      as (Hm & _ & _ & He).
    rewrite Hsub in Hm. auto.
  - intros Hq Hlen. rewrite <- Hsub in Hq, Hlen.
    rewrite perform_commit, Hc, notifySubscribers_quiet by done.
    destruct (quiet_notify_spec behaviour _ _ Hw1 Hq)
      as (Hm & Hs & _ & _ & _ & He).
    eexists _, _. split; [reflexivity|].
    split; [by rewrite Hm|]. split; [|by apply Hkept].
    eapply Forall_impl; [exact Hs|]. by intros iv (? & _).
Qed.

(** *** Callbacks that never call the runtime *)

Lemma inert_quiet cb : inert behaviour cb -> quiet_callback behaviour cb.
Proof. intros Hcb w. rewrite Hcb. constructor. Qed.

Lemma quiet_notify_inert l : forall w,
  Forall (inert behaviour) l ->
  quiet_notify behaviour l w = (w, map (fun cb => Invoked cb w []) l).
Proof.
  induction l as [|cb l IH]; intros w Hl; [reflexivity|].
  inversion_clear Hl as [|? ? Hcb Hrest]. simpl.
  rewrite Hcb. simpl. by rewrite IH.
Qed.

(** C9 (as amended): [registerTypePaths] appends the given type paths as
    they are, with no entry dropped, and assigns nothing else: the world
    its notification begins in, which the first subscriber sees, is the
    world of the call with the paths appended. With subscribers that do
    not call the runtime that is also the world after the call: nodes,
    subscribers and configuration are those before it. Whatever the
    subscribers do, the appended paths stay in place and the configuration
    is the same. *)
Theorem registerTypePaths_appends_only (fuel : nat)
  (typePaths' : list TypePath) (w : World) :
  well_formed w ->
  let appended :=
    {| this := with_typePaths (typePaths (this w) ++ typePaths') (this w);
       heap := heap w |} in
  (Forall (inert behaviour) (subscribed w) ->
   length (subscribed w) < fuel ->
   exists log,
     registerTypePaths (notifySubscribers behaviour fuel) typePaths' w
     = Some (tt, appended, log)
     /\ map callback_of log = subscribed w
     /\ typePaths (this appended) = typePaths (this w) ++ typePaths'
     /\ nodes (this appended) = nodes (this w)
     /\ subscribed appended = subscribed w
     /\ config (this appended) = config (this w)
     /\ nodeHelpers (this appended) = nodeHelpers (this w))
  /\ (forall u w' log,
        registerTypePaths (notifySubscribers behaviour fuel) typePaths' w
        = Some (u, w', log) ->
        (forall iv, head log = Some iv -> seen_by iv = appended)
        /\ (typePaths (this w) ++ typePaths') `prefix_of` typePaths (this w')
        /\ config (this w') = config (this w)
        /\ nodeHelpers (this w') = nodeHelpers (this w)).
Proof.
  intros Hw appended.
  change (registerTypePaths (notifySubscribers behaviour fuel) typePaths')
    with (perform (notifySubscribers behaviour fuel)
                  (RegisterTypePaths typePaths')).
  rewrite perform_commit. simpl mutating. cbv iota.
  set (w1 := commit (RegisterTypePaths typePaths') w).
  assert (Hw1 : well_formed w1) by by apply commit_well_formed.
  assert (Heq : w1 = appended).
  { unfold w1, appended, commit, with_typePaths. simpl.
    by rewrite app_nil_r. }
  split.
  - intros Hi Hlen.
    rewrite notifySubscribers_quiet; [| done | |done].
    + rewrite quiet_notify_inert by done. simpl.
      eexists. split; [by rewrite Heq|].
      split; [by rewrite map_map, map_id|]. auto.
    + eapply Forall_impl; [exact Hi|]. apply inert_quiet.
  - intros u w' log Hrun. split.
    + intros iv Hiv. rewrite <- Heq.
      by apply (notifySubscribers_first fuel w1 u w' log).
    + destruct (notifySubscribers_roots _ _ _ _ _ Hw1 Hrun)
        as (_ & _ & _ & (_ & _ & Ht & Hcfg & Hnh)).
      auto.
Qed.

Lemma registerDocument_commit notify document w :
  registerDocument notify document w =
  match notify (commit (RegisterDocument document) w) with
  | Some (_, w', log) => Some (normalizeDocument (this w) document, w', log)
  | None => None
  end.
Proof.
  unfold registerDocument, bind, self, assign, ret, commit, with_nodes.
  simpl. rewrite ?app_nil_r.
  destruct (notify _) as [[[[] w'] log]|]; simpl; rewrite ?app_nil_r;
    reflexivity.
Qed.

Lemma registerDocuments_commit notify documents w :
  registerDocuments notify documents w =
  match notify (commit (RegisterDocuments documents) w) with
  | Some (_, w', log) =>
      Some (map (normalizeDocument (this w)) documents, w', log)
  | None => None
  end.
Proof.
  unfold registerDocuments, bind, self, assign, ret, commit, with_nodes.
  simpl. rewrite ?app_nil_r.
  destruct (notify _) as [[[[] w'] log]|]; simpl; rewrite ?app_nil_r;
    reflexivity.
Qed.

Lemma normalizeDocument_at_type r document :
  normalized_at_type r document (normalizeDocument r document).
Proof. eexists. split; [reflexivity|]. simpl. auto. Qed.

(** C7: [registerDocument] normalizes the document at the path that holds
    its type name, appends that node to the end of [nodes] and returns it;
    [registerDocuments] does so for each document, in input order. The
    first subscriber sees [nodes] as the old sequence followed by the new
    nodes, and so is [nodes] after the call when the subscribers register
    nothing; in any case the new nodes are in place, after the old ones,
    when the call returns. *)
Theorem registerDocument_appends_normalized (fuel : nat) (w : World) :
  well_formed w ->
  (forall document,
      normalized_at_type (this w) document
                         (normalizeDocument (this w) document))
  /\ (forall document node w' log,
        registerDocument (notifySubscribers behaviour fuel) document w
        = Some (node, w', log) ->
        node = normalizeDocument (this w) document
        /\ (forall iv, head log = Some iv ->
                       nodes (this (seen_by iv)) = nodes (this w) ++ [node])
        /\ (nodes (this w) ++ [node]) `prefix_of` nodes (this w'))
  /\ (forall documents nodes' w' log,
        registerDocuments (notifySubscribers behaviour fuel) documents w
        = Some (nodes', w', log) ->
        nodes' = map (normalizeDocument (this w)) documents
        /\ (forall iv, head log = Some iv ->
                       nodes (this (seen_by iv)) = nodes (this w) ++ nodes')
        /\ (nodes (this w) ++ nodes') `prefix_of` nodes (this w'))
  /\ (Forall (quiet_callback behaviour) (subscribed w) ->
      length (subscribed w) < fuel ->
      (forall document,
          exists w' log,
            registerDocument (notifySubscribers behaviour fuel) document w
            = Some (normalizeDocument (this w) document, w', log)
            /\ nodes (this w')
               = nodes (this w) ++ [normalizeDocument (this w) document])
      /\ (forall documents,
            exists w' log,
              registerDocuments (notifySubscribers behaviour fuel)
                                documents w
              = Some (map (normalizeDocument (this w)) documents, w', log)
              /\ nodes (this w')
                 = nodes (this w)
                   ++ map (normalizeDocument (this w)) documents)).
Proof.
  intros Hw.
  assert (Hgen : forall c u w' log,
    mutating c = true ->
    notifySubscribers behaviour fuel (commit c w) = Some (u, w', log) ->
    (forall iv, head log = Some iv ->
                nodes (this (seen_by iv))
                = nodes (this w) ++ new_nodes c (this w))
    /\ (nodes (this w) ++ new_nodes c (this w)) `prefix_of` nodes (this w')).
  { intros c u w' log Hc Hrun. split.
    - intros iv Hiv.
      rewrite (notifySubscribers_first _ _ _ _ _ _ Hrun Hiv). by destruct c.
    - destruct (notifySubscribers_roots _ _ _ _ _
                  (commit_well_formed c w Hw) Hrun)
        as (_ & _ & _ & (_ & Hn & _)).
      by destruct c. }
  assert (Hquiet : forall c,
    mutating c = true ->
    Forall (quiet_callback behaviour) (subscribed w) ->
    length (subscribed w) < fuel ->
    exists w' log,
      notifySubscribers behaviour fuel (commit c w) = Some (tt, w', log)
      /\ nodes (this w') = nodes (this w) ++ new_nodes c (this w)).
  { intros c Hc Hq Hlen.
    pose proof (commit_well_formed c w Hw) as Hw1.
    rewrite <- (subscribed_commit_mutating c w Hc) in Hq, Hlen.
    rewrite notifySubscribers_quiet by done.
    destruct (quiet_notify_spec behaviour _ _ Hw1 Hq)
      as (_ & _ & Hn & _).
    eexists _, _. split; [reflexivity|]. rewrite Hn. by destruct c. }
  split; [intros; apply normalizeDocument_at_type|]. split; [|split].
  - intros document node w' log. rewrite registerDocument_commit.
    destruct (notifySubscribers _ _ _) as [[[[] w1] log1]|] eqn:Hrun;
      [|discriminate].
    intros [= <- <- <-]. split; [done|].
    by apply (Hgen (RegisterDocument document)) in Hrun.
  - intros documents nodes' w' log. rewrite registerDocuments_commit.
    destruct (notifySubscribers _ _ _) as [[[[] w1] log1]|] eqn:Hrun;
      [|discriminate].
    intros [= <- <- <-]. split; [done|].
    by apply (Hgen (RegisterDocuments documents)) in Hrun.
  - intros Hq Hlen. split.
    + intros document. rewrite registerDocument_commit.
      destruct (Hquiet (RegisterDocument document) eq_refl Hq Hlen)
        as (w' & log & -> & Hn). eauto.
    + intros documents. rewrite registerDocuments_commit.
      destruct (Hquiet (RegisterDocuments documents) eq_refl Hq Hlen)
        as (w' & log & -> & Hn). eauto.
Qed.

(** *** Append-only sequences *)

Lemma perform_extends fuel c w u w' log :
  well_formed w ->
  perform (notifySubscribers behaviour fuel) c w = Some (u, w', log) ->
  well_formed w' /\ extends w w'.
Proof.
  apply (keeps_perform extends (fun _ => True)); auto.
  - apply extends_trans.
  - intros. apply extends_commit.
  - intros v a v' lg Hv. rewrite notifySubscribers_eq.
    by apply notifyFrom_extends.
Qed.

Lemma script_extends fuel cs w u w' log :
  well_formed w ->
  for_each (perform (notifySubscribers behaviour fuel)) cs w
  = Some (u, w', log) ->
  well_formed w' /\ extends w w'.
Proof.
  apply (keeps_for_each extends extends_refl extends_trans).
  apply Forall_forall. intros c _ v a v' lg. apply perform_extends.
Qed.

Lemma subscribers_kept_commit c w :
  ~ is_unsubscribe c -> well_formed w -> subscribers_kept w (commit c w).
Proof.
  intros Hc _. unfold subscribers_kept.
  destruct (mutating c) eqn:Hm.
  - by rewrite subscribed_commit_mutating.
  - destruct c; try discriminate; [|by destruct Hc].
    rewrite subscribed_commit_subscribe. by apply prefix_app_r.
Qed.

(** C5 (as amended): [nodes] and [typePaths] are append-only: after every
    call their previous contents are a prefix of the new ones. The
    subscribers are append-only under every call but [unsubscribe], as long
    as no callback calls [unsubscribe]; [unsubscribe] removes every
    occurrence of its argument and keeps the others in order. *)
Theorem sequences_append_only (fuel : nat) (c : Call) (w : World)
  (u : unit) (w' : World) (log : list Invocation) :
  well_formed w ->
  perform (notifySubscribers behaviour fuel) c w = Some (u, w', log) ->
  nodes (this w) `prefix_of` nodes (this w')
  /\ typePaths (this w) `prefix_of` typePaths (this w')
  /\ (~ is_unsubscribe c ->
      (forall cb v, Forall (fun c' => ~ is_unsubscribe c') (behaviour cb v)) ->
      subscribed w `prefix_of` subscribed w')
  /\ (forall callback,
        c = Unsubscribe callback ->
        subscribed w' = filter (fun x => x <> callback) (subscribed w)).
Proof.
  intros Hw Hrun. split; [|split; [|split]].
  - by destruct (perform_extends _ _ _ _ _ _ Hw Hrun) as (_ & _ & ? & _).
  - by destruct (perform_extends _ _ _ _ _ _ Hw Hrun) as (_ & _ & _ & ? & _).
  - intros Hc Hb.
    assert (Htrans : forall a b d,
               subscribers_kept a b -> subscribers_kept b d ->
               subscribers_kept a d).
    { intros a b d. unfold subscribers_kept. by etrans. }
    eapply (keeps_perform subscribers_kept
              (fun c' => ~ is_unsubscribe c') Htrans
              subscribers_kept_commit) in Hrun; [by destruct Hrun|done| |done].
    apply keeps_notifySubscribers with (allowed := fun c' => ~ is_unsubscribe c');
      auto using subscribers_kept_commit.
    intros v. unfold subscribers_kept. reflexivity.
  - intros callback ->. rewrite perform_commit in Hrun. simpl in Hrun.
    injection Hrun as _ <- _. apply subscribed_commit_unsubscribe.
Qed.

(** *** Subscribing and unsubscribing before a mutation *)

Lemma subscribe_commit callback w :
  subscribe callback w = Some (tt, commit (Subscribe callback) w, []).
Proof. apply (perform_commit (ret tt) (Subscribe callback)). Qed.

Lemma unsubscribe_commit callback w :
  unsubscribe callback w = Some (tt, commit (Unsubscribe callback) w, []).
Proof. apply (perform_commit (ret tt) (Unsubscribe callback)). Qed.

Lemma for_each_subscribe callbacks : forall w,
  well_formed w ->
  exists w',
    for_each subscribe callbacks w = Some (tt, w', [])
    /\ well_formed w'
    /\ subscribed w' = subscribed w ++ callbacks.
Proof.
  induction callbacks as [|cb l IH]; intros w Hw; simpl.
  - exists w. by rewrite app_nil_r.
  - destruct (IH (commit (Subscribe cb) w)) as (w' & Hrun & Hw' & Hs);
      [by apply commit_well_formed|].
    exists w'. unfold bind. rewrite subscribe_commit, Hrun.
    rewrite Hs, subscribed_commit_subscribe, <- app_assoc. auto.
Qed.

Lemma createRuntime_well_formed config :
  well_formed (createRuntime config) /\ subscribed (createRuntime config) = [].
Proof. split; [unfold well_formed; simpl; lia|reflexivity]. Qed.

Lemma filter_lengths (P : nat -> Prop) `{!forall x, Decision (P x)}
  (l : list nat) :
  length (filter P l) + length (filter (fun x => ~ P x) l) = length l.
Proof.
  induction l as [|x l IH]; [reflexivity|].
  rewrite !filter_cons. destruct (decide (P x)), (decide (~ P x));
    simpl; try lia; tauto.
Qed.

(** C4 (as amended): after subscribing a list of callbacks to a new
    runtime and unsubscribing one callback, a mutation invokes the
    callbacks of the list that are not that callback, in order: every
    subscription of the unsubscribed callback is removed, so the number
    invoked is the number subscribed less the number of times that
    callback was subscribed, and one less when it was subscribed once.
    Without the [unsubscribe], every subscription fires, a callback
    subscribed twice being invoked twice. *)
Theorem unsubscribe_removes_every_subscription (config : RuntimeConfig.t)
  (fuel : nat) (callbacks : list SubscriberFn) (callback : SubscriberFn)
  (c : Call) :
  mutating c = true ->
  let notified :=
    for_each subscribe callbacks ;;
    unsubscribe callback ;;
    perform (notifySubscribers behaviour fuel) c in
  let all_notified :=
    for_each subscribe callbacks ;;
    perform (notifySubscribers behaviour fuel) c in
  let remaining := filter (fun x => x <> callback) callbacks in
  (forall u w' log,
      notified (createRuntime config) = Some (u, w', log) ->
      map callback_of log = remaining)
  /\ (Forall (quiet_callback behaviour) remaining ->
      length remaining < fuel ->
      exists w' log,
        notified (createRuntime config) = Some (tt, w', log)
        /\ map callback_of log = remaining)
  /\ (forall u w' log,
        all_notified (createRuntime config) = Some (u, w', log) ->
        map callback_of log = callbacks)
  /\ length remaining
     = length callbacks - length (filter (fun x => x = callback) callbacks)
  /\ (filter (fun x => x = callback) callbacks = [callback] ->
      length remaining = length callbacks - 1).
Proof.
  intros Hc notified all_notified remaining.
  destruct (createRuntime_well_formed config) as [Hw0 Hs0].
  destruct (for_each_subscribe callbacks _ Hw0) as (w1 & Hrun1 & Hw1 & Hs1).
  rewrite Hs0 in Hs1. simpl in Hs1.
  set (w2 := commit (Unsubscribe callback) w1).
  assert (Hw2 : well_formed w2) by by apply commit_well_formed.
  assert (Hs2 : subscribed w2 = remaining).
  { unfold w2. by rewrite subscribed_commit_unsubscribe, Hs1. }
  assert (Hnotified : notified (createRuntime config)
                      = perform (notifySubscribers behaviour fuel) c w2).
  { unfold notified, bind. rewrite Hrun1, unsubscribe_commit. fold w2.
    destruct (perform _ c w2) as [[[? ?] ?]|]; reflexivity. }
  assert (Hall : all_notified (createRuntime config)
                 = perform (notifySubscribers behaviour fuel) c w1).
  { unfold all_notified, bind. rewrite Hrun1.
    destruct (perform _ c w1) as [[[? ?] ?]|]; reflexivity. }
  assert (Hlen : length remaining
     = length callbacks - length (filter (fun x => x = callback) callbacks)).
  { pose proof (filter_lengths (fun x => x = callback) callbacks) as Hf.
    cbv beta in Hf. unfold remaining. lia. }
  split; [|split; [|split; [|split]]].
  - intros u w' log. rewrite Hnotified. intros Hrun.
    destruct (perform_mutating_roots _ _ _ _ _ _ Hw2 Hc Hrun) as [Hm _].
    by rewrite Hm.
  - intros Hq Hl. rewrite Hnotified. rewrite <- Hs2 in Hq, Hl.
    rewrite perform_mutating_quiet by done.
    destruct (quiet_notify_spec behaviour (subscribed w2) (commit c w2))
      as (Hm & _); [by apply commit_well_formed|done|].
    eexists _, _. split; [reflexivity|]. by rewrite Hm.
  - intros u w' log. rewrite Hall. intros Hrun.
    destruct (perform_mutating_roots _ _ _ _ _ _ Hw1 Hc Hrun) as [Hm _].
    by rewrite Hm.
  - exact Hlen.
  - intros Honce. rewrite Hlen, Honce. reflexivity.
Qed.

End Subscribers.

(** ** Registration and lookup *)

Section Registry.
Context `{Types} `{!Modules}.
Variable behaviour : SubscriberFn -> World -> list Call.

Lemma find_app_split {A} (f : A -> bool) (l k : list A) :
  List.find f (l ++ k)
  = match List.find f l with Some x => Some x | None => List.find f k end.
Proof.
  induction l as [|a l IH]; simpl; [done|]. by destruct (f a).
Qed.

Lemma existsb_find {A} (f : A -> bool) (l : list A) :
  existsb f l = true <-> is_Some (List.find f l).
Proof.
  induction l as [|a l IH]; simpl.
  - split; [done|]. by intros [? ?].
  - destruct (f a); simpl; [|done]. split; [by eexists|done].
Qed.

(** X1: what a lookup found before a call it still finds after it, whatever
    the subscribers do during the call: registered nodes and type paths are
    never replaced or hidden by later registrations. *)
Theorem lookups_persist (fuel : nat) (c : Call) (w : World) (u : unit)
  (w' : World) (log : list Invocation) :
  well_formed w ->
  perform (notifySubscribers behaviour fuel) c w = Some (u, w', log) ->
  (forall id node,
      getNode (this w) id = Some node -> getNode (this w') id = Some node)
  /\ (forall id, hasNode (this w) id = true -> hasNode (this w') id = true)
  /\ (forall p typePath,
        getTypePath (this w) p = Some typePath ->
        getTypePath (this w') p = Some typePath).
Proof.
  intros Hw Hrun.
  destruct (perform_extends behaviour _ _ _ _ _ _ Hw Hrun)
    as (_ & _ & [kn Hn] & [kt Ht] & _).
  assert (Hnode : forall id node,
             getNode (this w) id = Some node ->
             getNode (this w') id = Some node).
  { intros id node. unfold getNode. rewrite Hn, find_app_split.
    by intros ->. }
  split; [exact Hnode|]. split.
  - intros id. unfold hasNode. rewrite !existsb_find.
    intros [node Hnode']. exists node. by apply Hnode.
  - intros p typePath. unfold getTypePath. rewrite Ht, find_app_split.
    by intros ->.
Qed.

Lemma find_is_Some_of_member {A} (f : A -> bool) (l : list A) (x : A) :
  x ∈ l -> f x = true -> is_Some (List.find f l).
Proof.
  intros Hx Hfx. apply existsb_find, existsb_exists.
  exists x. split; [by apply list_elem_of_In|done].
Qed.

(** X2: after a call that registers type paths, a lookup answers from the
    paths registered before the call, else from the paths of the call, else
    from what subscribers registered during it, in that order; so every
    path registered by the call is found afterwards, by an earlier entry
    with the same joined path if there is one. *)
Theorem registered_typePaths_found (fuel : nat) (c : Call) (w : World)
  (u : unit) (w' : World) (log : list Invocation) :
  well_formed w ->
  mutating c = true ->
  perform (notifySubscribers behaviour fuel) c w = Some (u, w', log) ->
  exists later,
    typePaths (this w')
    = (typePaths (this w) ++ new_typePaths c (this w)) ++ later
    /\ (forall p,
          getTypePath (this w') p
          = match getTypePath (this w) p with
            | Some typePath => Some typePath
            | None =>
                match first_joined (new_typePaths c (this w)) p with
                | Some typePath => Some typePath
                | None => first_joined later p
                end
            end)
    /\ (forall typePath,
          typePath ∈ new_typePaths c (this w) ->
          is_Some (getTypePath (this w') (path typePath))).
Proof.
  intros Hw Hc Hrun.
  destruct (perform_mutating_roots behaviour _ _ _ _ _ _ Hw Hc Hrun)
    as (_ & _ & _ & (_ & _ & [later Ht] & _)).
  assert (Hnew : typePaths (this (commit c w))
                 = typePaths (this w) ++ new_typePaths c (this w))
    by by destruct c.
  rewrite Hnew in Ht. exists later. split; [done|].
  assert (Hlookup : forall p,
    getTypePath (this w') p
    = match getTypePath (this w) p with
      | Some typePath => Some typePath
      | None =>
          match first_joined (new_typePaths c (this w)) p with
          | Some typePath => Some typePath
          | None => first_joined later p
          end
      end).
  { intros p. unfold getTypePath, first_joined, joined.
    rewrite Ht, !find_app_split.
    destruct (List.find _ (typePaths (this w))); [done|].
    by destruct (List.find _ (new_typePaths c (this w))). }
  split; [exact Hlookup|].
  intros typePath Hin. rewrite Hlookup.
  destruct (getTypePath (this w) (path typePath)); [by eexists|].
  destruct (find_is_Some_of_member
              (fun e => String.eqb (joined (path e)) (joined (path typePath)))
              _ _ Hin (String.eqb_refl _)) as [found Hfound].
  unfold first_joined. rewrite Hfound. by eexists.
Qed.

(** X3: [registerDocument] makes the identity of the node it returns
    known: [hasNode] answers [true] for it afterwards. It never replaces a
    node: when a node with that identity was registered before, [getNode]
    keeps returning the earlier node; otherwise it returns the new one,
    whatever subscribers register during the call. *)
Theorem registerDocument_then_getNode (fuel : nat)
  (document : PrismicDocument) (w : World)
  (node : NormalizedDocumentValue) (w' : World) (log : list Invocation) :
  well_formed w ->
  registerDocument (notifySubscribers behaviour fuel) document w
  = Some (node, w', log) ->
  hasNode (this w') (prismicId node) = true
  /\ getNode (this w') (prismicId node)
     = match getNode (this w) (prismicId node) with
       | Some earlier => Some earlier
       | None => Some node
       end
  /\ (forall id,
        id <> prismicId node ->
        exists later,
          nodes (this w') = (nodes (this w) ++ [node]) ++ later
          /\ getNode (this w') id
             = match getNode (this w) id with
               | Some earlier => Some earlier
               | None => first_with_id later id
               end).
Proof.
  intros Hw. rewrite registerDocument_commit.
  destruct (notifySubscribers _ _ _) as [[[[] w1] log1]|] eqn:Hrun;
    [|discriminate].
  intros [= <- <- <-].
  destruct (notifySubscribers_roots behaviour _ _ _ _ _
              (commit_well_formed (RegisterDocument document) w Hw) Hrun)
    as (_ & _ & _ & (_ & [later Hn] & _)).
  simpl in Hn.
  set (node := normalizeDocument (this w) document) in *.
  assert (Hget : getNode (this w1) (prismicId node)
     = match getNode (this w) (prismicId node) with
       | Some earlier => Some earlier
       | None => Some node
       end).
  { unfold getNode. rewrite Hn, !find_app_split. simpl.
    rewrite String.eqb_refl. by destruct (List.find _ (nodes (this w))). }
  split; [|split; [exact Hget|]].
  - unfold hasNode. apply existsb_find.
    fold (getNode (this w1) (prismicId node)).
    rewrite Hget. destruct (getNode (this w) _); by eexists.
  - intros id Hid. exists later. split; [done|].
    unfold getNode, first_with_id. rewrite Hn, !find_app_split. simpl.
    destruct (List.find _ (nodes (this w))); [done|].
    destruct (String.eqb_spec (prismicId node) id); [congruence|done].
Qed.

End Registry.

(** ** Batches *)

Section Batches.
Context `{Types} `{!Modules}.
Variable behaviour : SubscriberFn -> World -> list Call.

Lemma perform_inert fuel c w :
  well_formed w ->
  mutating c = true ->
  Forall (inert behaviour) (subscribed w) ->
  length (subscribed w) < fuel ->
  perform (notifySubscribers behaviour fuel) c w
  = Some (tt, commit c w, inert_log (commit c w) (subscribed w)).
Proof.
  intros Hw Hc Hi Hlen.
  assert (Hq : Forall (quiet_callback behaviour) (subscribed w)).
  { eapply Forall_impl; [exact Hi|]. apply inert_quiet. }
  rewrite (perform_mutating_quiet behaviour) by done.
  by rewrite (quiet_notify_inert behaviour).
Qed.

Lemma inert_log_callbacks w l : map callback_of (inert_log w l) = l.
Proof. unfold inert_log. rewrite map_map. apply map_id. Qed.

Lemma script_inert fuel cs : forall w,
  well_formed w ->
  Forall (fun c => mutating c = true) cs ->
  Forall (inert behaviour) (subscribed w) ->
  length (subscribed w) < fuel ->
  exists log,
    for_each (perform (notifySubscribers behaviour fuel)) cs w
    = Some (tt, commits cs w, log)
    /\ map callback_of log = concat (map (fun _ => subscribed w) cs).
Proof.
  induction cs as [|c cs IH]; intros w Hw Hcs Hi Hlen; simpl.
  - by exists [].
  - inversion_clear Hcs as [|? ? Hc Hrest].
    pose proof (subscribed_commit_mutating c w Hc) as Hsub.
    destruct (IH (commit c w)) as (log & Hrun & Hlog);
      [by apply commit_well_formed|done|by rewrite Hsub..|].
    unfold bind. rewrite perform_inert, Hrun by done.
    eexists. split; [reflexivity|].
    rewrite map_app, inert_log_callbacks, Hlog, Hsub. done.
Qed.

Lemma world_eta (w : World) :
  {| this := {| nodes := nodes (this w); typePaths := typePaths (this w);
                subscribers := subscribers (this w);
                config := config (this w);
                nodeHelpers := nodeHelpers (this w) |};
     heap := heap w |} = w.
Proof. by destruct w as [[] ?]. Qed.

Lemma commit_empty_batch c w : empty_batch c -> commit c w = w.
Proof.
  intros [-> | [-> | [-> | ->]]]; unfold commit; simpl;
    rewrite !app_nil_r; apply world_eta.
Qed.

Lemma commits_custom_models models : forall w,
  commits (map RegisterCustomTypeModel models) w
  = commit (RegisterCustomTypeModels models) w.
Proof.
  induction models as [|m models IH]; intros w; simpl.
  - symmetry. apply commit_empty_batch. unfold empty_batch. auto.
  - rewrite IH. unfold commit. simpl. by rewrite !app_nil_r, <- app_assoc.
Qed.

Lemma commits_shared_models models : forall w,
  commits (map RegisterSharedSliceModel models) w
  = commit (RegisterSharedSliceModels models) w.
Proof.
  induction models as [|m models IH]; intros w; simpl.
  - symmetry. apply commit_empty_batch. unfold empty_batch. auto.
  - rewrite IH. unfold commit. simpl. by rewrite !app_nil_r, <- app_assoc.
Qed.

Lemma registerCustomTypeModels_commit notify models w :
  registerCustomTypeModels notify models w =
  match notify (commit (RegisterCustomTypeModels models) w) with
  | Some (_, w', log) =>
      Some (new_typePaths (RegisterCustomTypeModels models) (this w), w', log)
  | None => None
  end.
Proof.
  unfold registerCustomTypeModels, bind, self, assign, ret, commit,
    with_typePaths.
  simpl. rewrite ?app_nil_r.
  destruct (notify _) as [[[[] w'] log]|]; simpl; rewrite ?app_nil_r;
    reflexivity.
Qed.

Lemma registerSharedSliceModels_commit notify models w :
  registerSharedSliceModels notify models w =
  match notify (commit (RegisterSharedSliceModels models) w) with
  | Some (_, w', log) =>
      Some (new_typePaths (RegisterSharedSliceModels models) (this w), w', log)
  | None => None
  end.
Proof.
  unfold registerSharedSliceModels, bind, self, assign, ret, commit,
    with_typePaths.
  simpl. rewrite ?app_nil_r.
  destruct (notify _) as [[[[] w'] log]|]; simpl; rewrite ?app_nil_r;
    reflexivity.
Qed.

(** X4: registering models in one batch or one by one leaves the runtime
    in the same state, and the batch returns the type paths of its models
    in order; but the batch notifies each subscriber once, where one by one
    each subscriber is notified once per model. (Subscribers that do not
    call the runtime.) *)
Theorem models_in_batch_or_one_by_one (fuel : nat) (w : World)
  (custom : list CustomTypeModel) (shared : list SharedSliceModel) :
  well_formed w ->
  Forall (inert behaviour) (subscribed w) ->
  length (subscribed w) < fuel ->
  let notify := notifySubscribers behaviour fuel in
  let transform := Config.transformFieldName (config (this w)) in
  (exists w' batch_log each_log,
      registerCustomTypeModels notify custom w
      = Some (flat_map (fun model =>
                          customTypeModelToTypePaths model transform) custom,
              w', batch_log)
      /\ for_each (fun model => perform notify (RegisterCustomTypeModel model))
                  custom w
         = Some (tt, w', each_log)
      /\ map callback_of batch_log = subscribed w
      /\ map callback_of each_log
         = concat (map (fun _ => subscribed w) custom))
  /\ (exists w' batch_log each_log,
        registerSharedSliceModels notify shared w
        = Some (flat_map (fun model =>
                            sharedSliceModelToTypePaths model transform)
                         shared,
                w', batch_log)
        /\ for_each (fun model =>
                       perform notify (RegisterSharedSliceModel model))
                    shared w
           = Some (tt, w', each_log)
        /\ map callback_of batch_log = subscribed w
        /\ map callback_of each_log
           = concat (map (fun _ => subscribed w) shared)).
Proof.
  intros Hw Hi Hlen notify transform.
  assert (Heach : forall {A} (f : A -> Call) (l : list A) v,
    for_each (fun x => perform notify (f x)) l v
    = for_each (perform notify) (map f l) v).
  { intros A f l. induction l as [|x l IH]; intros v; simpl; [done|].
    unfold bind. destruct (perform notify (f x) v) as [[[? v1] ?]|]; [|done].
    by rewrite IH. }
  split.
  - destruct (script_inert fuel (map RegisterCustomTypeModel custom) w)
      as (each_log & Hrun & Hlog); [done| |done..|].
    { apply Forall_forall. intros c (m & -> & _)%list_elem_of_fmap. done. }
    rewrite commits_custom_models in Hrun. rewrite map_map in Hlog.
    eexists _, _, each_log.
    rewrite registerCustomTypeModels_commit, Heach.
    fold notify in Hrun. rewrite Hrun.
    pose proof (perform_inert fuel (RegisterCustomTypeModels custom) w
                  Hw eq_refl Hi Hlen) as Hbatch.
    rewrite perform_commit in Hbatch. simpl in Hbatch.
    fold notify in Hbatch. rewrite Hbatch.
    split; [reflexivity|]. split; [reflexivity|].
    split; [apply inert_log_callbacks|exact Hlog].
  - destruct (script_inert fuel (map RegisterSharedSliceModel shared) w)
      as (each_log & Hrun & Hlog); [done| |done..|].
    { apply Forall_forall. intros c (m & -> & _)%list_elem_of_fmap. done. }
    rewrite commits_shared_models in Hrun. rewrite map_map in Hlog.
    eexists _, _, each_log.
    rewrite registerSharedSliceModels_commit, Heach.
    fold notify in Hrun. rewrite Hrun.
    pose proof (perform_inert fuel (RegisterSharedSliceModels shared) w
                  Hw eq_refl Hi Hlen) as Hbatch.
    rewrite perform_commit in Hbatch. simpl in Hbatch.
    fold notify in Hbatch. rewrite Hbatch.
    split; [reflexivity|]. split; [reflexivity|].
    split; [apply inert_log_callbacks|exact Hlog].
Qed.

(** X5: a batch with no element changes nothing in the runtime and still
    notifies: the call is the notification alone, so it invokes every
    subscriber once, the first of them in the unchanged world. *)
Theorem empty_batch_still_notifies (fuel : nat) (c : Call) (w : World) :
  well_formed w ->
  empty_batch c ->
  commit c w = w
  /\ perform (notifySubscribers behaviour fuel) c w
     = notifySubscribers behaviour fuel w
  /\ (forall u w' log,
        perform (notifySubscribers behaviour fuel) c w = Some (u, w', log) ->
        map callback_of log = subscribed w
        /\ (forall iv, head log = Some iv -> seen_by iv = w))
  /\ (Forall (inert behaviour) (subscribed w) ->
      length (subscribed w) < fuel ->
      perform (notifySubscribers behaviour fuel) c w
      = Some (tt, w, inert_log w (subscribed w))).
Proof.
  intros Hw Hc.
  pose proof (commit_empty_batch c w Hc) as Hcommit.
  assert (Hm : mutating c = true).
  { by destruct Hc as [-> | [-> | [-> | ->]]]. }
  assert (Hperform : perform (notifySubscribers behaviour fuel) c w
                     = notifySubscribers behaviour fuel w).
  { by rewrite perform_commit, Hm, Hcommit. }
  split; [done|]. split; [done|]. split.
  - intros u w' log. rewrite Hperform. intros Hrun.
    destruct (notifySubscribers_roots behaviour _ _ _ _ _ Hw Hrun)
      as (Hroots & _).
    split; [done|]. intros iv Hiv.
    by apply (notifySubscribers_first behaviour fuel w u w' log).
  - intros Hi Hlen. rewrite (perform_inert fuel c w) by done.
    by rewrite Hcommit.
Qed.

End Batches.

(** ** Documents one by one *)

Section Documents.
Context `{Types} `{!Modules}.
Variable behaviour : SubscriberFn -> World -> list Call.

(** X15: documents registered one by one are normalized in view of the
    documents before them: the runtime handed to [normalize] for the second
    document knows the node of the first. Registered in one batch, both are
    normalized with the lookups of the runtime before the call, where the
    first is unknown unless it was registered earlier. (Subscribers that do
    not call the runtime.) *)
Theorem documents_one_by_one_or_in_batch (fuel : nat)
  (first second : PrismicDocument) (w : World) :
  well_formed w ->
  Forall (inert behaviour) (subscribed w) ->
  length (subscribed w) < fuel ->
  let notify := notifySubscribers behaviour fuel in
  let node := normalizeDocument (this w) first in
  exists w1 w2 w' log1 log2 log,
    registerDocument notify first w = Some (node, w1, log1)
    /\ registerDocument notify second w1
       = Some (normalizeDocument (this w1) second, w2, log2)
    /\ hasNode (this w1) (prismicId node) = true
    /\ nodes (this w2)
       = nodes (this w) ++ [node; normalizeDocument (this w1) second]
    /\ registerDocuments notify [first; second] w
       = Some ([node; normalizeDocument (this w) second], w', log)
    /\ nodes (this w')
       = nodes (this w) ++ [node; normalizeDocument (this w) second]
    /\ (getNode (this w) (prismicId node) = None ->
        hasNode (this w) (prismicId node) = false).
Proof.
  intros Hw Hi Hlen notify node.
  set (w1 := commit (RegisterDocument first) w).
  assert (Hw1 : well_formed w1) by by apply commit_well_formed.
  assert (Hs1 : subscribed w1 = subscribed w) by done.
  assert (Hrun : forall c v,
    well_formed v -> subscribed v = subscribed w -> mutating c = true ->
    notify (commit c v)
    = Some (tt, commit c v, inert_log (commit c v) (subscribed v))).
  { intros c v Hv Hsv Hc.
    pose proof (perform_inert behaviour fuel c v Hv Hc) as Hp.
    rewrite perform_commit, Hc in Hp. apply Hp; by rewrite Hsv. }
  exists w1, (commit (RegisterDocument second) w1),
         (commit (RegisterDocuments [first; second]) w).
  eexists _, _, _.
  rewrite !registerDocument_commit, registerDocuments_commit.
  rewrite !Hrun by done. fold w1.
  split; [reflexivity|]. split; [reflexivity|]. split.
  { unfold hasNode, w1. simpl. rewrite existsb_app. simpl.
    rewrite String.eqb_refl. apply orb_true_iff. auto. }
  split; [by unfold w1; simpl; rewrite <- app_assoc|].
  split; [reflexivity|]. split; [done|].
  intros Hnone. unfold hasNode.
  destruct (existsb _ _) eqn:He; [|done].
  apply existsb_find in He as [n Hn]. unfold getNode in Hnone. congruence.
Qed.

End Documents.

(** ** Subscribing and unsubscribing *)

Section Subscriptions.
Context `{Types} `{!Modules}.
Variable behaviour : SubscriberFn -> World -> list Call.

Lemma filter_absent (x : nat) (l : list nat) :
  filter (fun y => y <> x) l = l <-> x ∉ l.
Proof.
  split.
  - intros Hl Hx. rewrite <- Hl in Hx.
    apply list_elem_of_filter in Hx as [Hne _]. by apply Hne.
  - induction l as [|a l IH]; [done|]. intros Hx.
    apply not_elem_of_cons in Hx as [Hne Hl].
    rewrite filter_cons_True by done. by rewrite IH.
Qed.

Lemma subscribe_unsubscribe_run (first second : Call) w :
  mutating first = false -> mutating second = false ->
  (perform (ret tt) first ;; perform (ret tt) second) w
  = Some (tt, commit second (commit first w), []).
Proof.
  intros H1 H2. unfold bind. rewrite perform_commit, H1.
  by rewrite perform_commit, H2.
Qed.

(** X6: [unsubscribe] notifies nobody and touches neither nodes nor type
    paths. Afterwards the callback is not subscribed, the other callbacks
    are subscribed as before, in the same order; unsubscribing a callback
    that is not subscribed keeps the subscribers as they are, so a second
    [unsubscribe] of the same callback changes nothing. *)
Theorem unsubscribe_removes_only_its_callback (callback : SubscriberFn)
  (w : World) :
  exists w1 w2,
    unsubscribe callback w = Some (tt, w1, [])
    /\ unsubscribe callback w1 = Some (tt, w2, [])
    /\ (callback ∉ subscribed w1)
    /\ (forall other,
          other <> callback ->
          filter (fun x => x = other) (subscribed w1)
          = filter (fun x => x = other) (subscribed w))
    /\ subscribed w1 `sublist_of` subscribed w
    /\ (callback ∉ subscribed w -> subscribed w1 = subscribed w)
    /\ subscribed w2 = subscribed w1
    /\ nodes (this w1) = nodes (this w)
    /\ typePaths (this w1) = typePaths (this w)
    /\ config (this w1) = config (this w).
Proof.
  exists (commit (Unsubscribe callback) w),
         (commit (Unsubscribe callback) (commit (Unsubscribe callback) w)).
  rewrite !unsubscribe_commit, !subscribed_commit_unsubscribe.
  split; [done|]. split; [done|]. split.
  { intros [Hne _]%list_elem_of_filter. by apply Hne. }
  split.
  { intros other Hother. rewrite list_filter_filter.
    apply list_filter_iff. intros x. split; [tauto|].
    intros ->. auto. }
  split; [apply sublist_filter|].
  split; [by intros ?%filter_absent|].
  split; [|done].
  apply list_filter_filter_l. auto.
Qed.

(** X7: [subscribe] followed by [unsubscribe] of the same callback leaves
    the subscribers as they were exactly when the callback was not
    subscribed before: otherwise its earlier subscriptions are removed too.
    [unsubscribe] followed by [subscribe] leaves the callback subscribed
    once, last. Neither pair notifies. *)
Theorem subscribe_and_unsubscribe_compose (callback : SubscriberFn)
  (w : World) :
  exists w1 w2,
    (subscribe callback ;; unsubscribe callback) w = Some (tt, w1, [])
    /\ (unsubscribe callback ;; subscribe callback) w = Some (tt, w2, [])
    /\ subscribed w1 = filter (fun x => x <> callback) (subscribed w)
    /\ (subscribed w1 = subscribed w <-> callback ∉ subscribed w)
    /\ subscribed w2
       = filter (fun x => x <> callback) (subscribed w) ++ [callback]
    /\ filter (fun x => x = callback) (subscribed w2) = [callback].
Proof.
  exists (commit (Unsubscribe callback) (commit (Subscribe callback) w)),
         (commit (Subscribe callback) (commit (Unsubscribe callback) w)).
  split; [exact (subscribe_unsubscribe_run (Subscribe callback)
                   (Unsubscribe callback) w eq_refl eq_refl)|].
  split; [exact (subscribe_unsubscribe_run (Unsubscribe callback)
                   (Subscribe callback) w eq_refl eq_refl)|].
  rewrite subscribed_commit_unsubscribe, !subscribed_commit_subscribe,
    subscribed_commit_unsubscribe.
  assert (Hfirst : filter (fun x => x <> callback) (subscribed w ++ [callback])
                   = filter (fun x => x <> callback) (subscribed w)).
  { rewrite filter_app, filter_cons_False by (intros Hne; by apply Hne).
    by rewrite filter_nil, app_nil_r. }
  rewrite Hfirst. split; [done|]. split; [apply filter_absent|].
  split; [done|].
  rewrite filter_app, list_filter_filter, filter_cons_True by done.
  rewrite (list_filter_iff _ (fun _ => False)) by tauto.
  assert (Hnone : forall l : list nat, filter (fun _ => False) l = []).
  { intros l. induction l as [|a l IH]; [done|].
    rewrite filter_cons_False; [exact IH|tauto]. }
  by rewrite Hnone.
Qed.

(** X8: the callbacks a mutating call invokes itself are those subscribed
    when it is called, so a callback that is not subscribed then is not
    among them even when a subscriber subscribes it during the
    notification; in particular a callback unsubscribed just before the
    call is not invoked by it. *)
Theorem unsubscribed_callback_not_invoked (fuel : nat) (c : Call)
  (callback : SubscriberFn) (w : World) :
  well_formed w ->
  mutating c = true ->
  (forall u w' log,
      callback ∉ subscribed w ->
      perform (notifySubscribers behaviour fuel) c w = Some (u, w', log) ->
      callback ∉ map callback_of log)
  /\ (forall u w' log,
        (unsubscribe callback ;;
         perform (notifySubscribers behaviour fuel) c) w
        = Some (u, w', log) ->
        (callback ∉ map callback_of log)
        /\ map callback_of log
           = filter (fun x => x <> callback) (subscribed w)).
Proof.
  intros Hw Hc. split.
  - intros u w' log Habsent Hrun.
    destruct (perform_mutating_roots behaviour _ _ _ _ _ _ Hw Hc Hrun)
      as (Hroots & _).
    by rewrite Hroots.
  - intros u w' log.
    intros (a & w1 & l1 & l2 & Hun & Hrun & ->)%bind_Some.
    rewrite unsubscribe_commit in Hun. injection Hun as _ <- <-.
    destruct (perform_mutating_roots behaviour _ _ _ _ _ _
                (commit_well_formed (Unsubscribe callback) w Hw) Hc Hrun)
      as (Hroots & _).
    simpl. rewrite Hroots, subscribed_commit_unsubscribe.
    split; [|done].
    intros [Hne _]%list_elem_of_filter. by apply Hne.
Qed.

End Subscriptions.

(** ** Notifications that do not return *)

Section Reentrancy.
Context `{Types} `{!Modules}.
Variable behaviour : SubscriberFn -> World -> list Call.

Lemma call_inert notify cb w :
  behaviour cb w = [] ->
  call behaviour notify cb w = Some (tt, w, [Invoked cb w []]).
Proof. intros Hcb. unfold call. by rewrite Hcb. Qed.

Lemma notifyFrom_never_returns pre cb post :
  Forall (inert behaviour) pre ->
  always_registers behaviour cb ->
  forall fuel w k,
    subscribed w = pre ++ cb :: post ->
    k <= length pre ->
    notifyFrom behaviour fuel (subscribers (this w)) k w = None.
Proof.
  intros Hpre Hcb.
  induction fuel as [|fuel IH]; intros w k Hsub Hk; [done|].
  rewrite notifyFrom_S. fold (subscribed w). rewrite Hsub.
  destruct (decide (k = length pre)) as [->|Hne].
  - rewrite list_lookup_middle by done.
    destruct (Hcb w) as (c & rest & Hbody & Hc).
    unfold bind, call. rewrite Hbody. simpl. unfold bind.
    rewrite perform_commit, Hc, notifySubscribers_eq.
    rewrite IH; [done| |lia].
    by rewrite subscribed_commit_mutating.
  - assert (Hlt : k < length pre) by lia.
    destruct (lookup_lt_is_Some_2 _ _ Hlt) as [cb' Hcb'].
    rewrite lookup_app_l, Hcb' by done.
    assert (Hin : inert behaviour cb').
    { eapply Forall_forall; [exact Hpre|].
      by eapply list_elem_of_lookup_2. }
    unfold bind. rewrite call_inert by apply Hin.
    rewrite IH; [done..|lia].
Qed.

(** X9: the notification has no guard against re-entrance: when a
    subscriber begins every run with a registration, and the subscribers
    before it do not call the runtime, no mutating call ever returns. *)
Theorem reentrant_registration_never_returns (fuel : nat) (c : Call)
  (w : World) (pre post : list SubscriberFn) (cb : SubscriberFn) :
  mutating c = true ->
  subscribed w = pre ++ cb :: post ->
  Forall (inert behaviour) pre ->
  always_registers behaviour cb ->
  perform (notifySubscribers behaviour fuel) c w = None.
Proof.
  intros Hc Hsub Hpre Hcb.
  rewrite perform_commit, Hc, notifySubscribers_eq.
  apply (notifyFrom_never_returns pre cb post); [done..| |lia].
  by rewrite subscribed_commit_mutating.
Qed.

End Reentrancy.

(** ** The constructor *)

Section Constructor.
Context `{Types} `{!Modules}.
Variable behaviour : SubscriberFn -> World -> list Call.

Lemma replace_all_no_hyphen (s : string) :
  hyphen ∉ list_ascii_of_string (JsString.replace_all "-" "_" s).
Proof.
  induction s as [|a s IH]; simpl; [apply not_elem_of_nil|].
  apply not_elem_of_cons. split; [|exact IH].
  destruct (Ascii.eqb_spec a "-"); [discriminate|done].
Qed.

Lemma replace_all_length (s : string) :
  String.length (JsString.replace_all "-" "_" s) = String.length s.
Proof. induction s as [|a s IH]; simpl; [done|]. by rewrite IH. Qed.

Lemma replace_all_fixes (s : string) :
  hyphen ∉ list_ascii_of_string s ->
  JsString.replace_all "-" "_" s = s.
Proof.
  induction s as [|a s IH]; simpl; [done|].
  intros [Hne Hs]%not_elem_of_cons. rewrite IH by done.
  destruct (Ascii.eqb_spec a "-") as [->|]; [by destruct Hne|done].
Qed.

(** X12: when the configuration gives no [transformFieldName], the runtime
    renames fields by replacing every hyphen with an underscore: a renamed
    field has no hyphen and the length of the name, renaming twice is
    renaming once, and a name without hyphen is kept. A given
    [transformFieldName] is used as it is. *)
Theorem default_transformFieldName (config' : RuntimeConfig.t) :
  let transform :=
    Config.transformFieldName (config (this (createRuntime config'))) in
  match RuntimeConfig.transformFieldName config' with
  | Some given => transform = given
  | None =>
      forall name,
        (hyphen ∉ list_ascii_of_string (transform name))
        /\ String.length (transform name) = String.length name
        /\ transform (transform name) = transform name
        /\ (hyphen ∉ list_ascii_of_string name -> transform name = name)
  end.
Proof.
  simpl. destruct (RuntimeConfig.transformFieldName config'); simpl; [done|].
  intros name. split; [apply replace_all_no_hyphen|].
  split; [apply replace_all_length|].
  split; [|apply replace_all_fixes].
  apply replace_all_fixes, replace_all_no_hyphen.
Qed.

(** X13: the type prefix the constructor gives to the node helpers is the
    global prefix followed, after one space, by the configured prefix; a
    missing or empty configured prefix adds nothing, not even the
    space. *)
Theorem constructor_typePrefix (config' : RuntimeConfig.t) :
  let helpers := nodeHelpers (this (createRuntime config')) in
  NodeHelpers.Params.fieldPrefix (NodeHelpers.params helpers)
  = GLOBAL_TYPE_PREFIX
  /\ NodeHelpers.Params.typePrefix (NodeHelpers.params helpers)
     = match RuntimeConfig.typePrefix config' with
       | None => GLOBAL_TYPE_PREFIX
       | Some prefix =>
           if decide (prefix = EmptyString) then GLOBAL_TYPE_PREFIX
           else if decide (GLOBAL_TYPE_PREFIX = EmptyString) then prefix
           else String.append GLOBAL_TYPE_PREFIX (String.append " " prefix)
       end.
Proof.
  simpl. split; [done|].
  destruct (RuntimeConfig.typePrefix config') as [prefix|]; simpl.
  - rewrite !filter_cons, filter_nil.
    destruct (decide (GLOBAL_TYPE_PREFIX <> EmptyString)) as [Hg|Hg],
             (decide (prefix <> EmptyString)) as [Hp|Hp]; simpl.
    + rewrite decide_False, decide_False by done. done.
    + apply dec_stable in Hp. by rewrite decide_True.
    + apply dec_stable in Hg. rewrite decide_False, decide_True by done.
      done.
    + apply dec_stable in Hg. apply dec_stable in Hp.
      by rewrite decide_True.
  - rewrite !filter_cons, filter_nil.
    destruct (decide (GLOBAL_TYPE_PREFIX <> EmptyString)) as [Hg|Hg]; simpl;
      [done|]. by apply dec_stable in Hg.
Qed.

(** X14: a runtime without subscribers, such as a new one, needs no
    notification: a mutating call returns after its own append and invokes
    nobody. On a new runtime a registered document is then the node
    [getNode] finds for its identity, and the only node. *)
Theorem first_registration (fuel : nat) (config' : RuntimeConfig.t) :
  well_formed (createRuntime config')
  /\ subscribed (createRuntime config') = []
  /\ (forall c w,
        mutating c = true ->
        subscribed w = [] ->
        perform (notifySubscribers behaviour (S fuel)) c w
        = Some (tt, commit c w, []))
  /\ (forall document,
        let node := normalizeDocument (this (createRuntime config')) document in
        exists w',
          registerDocument (notifySubscribers behaviour (S fuel)) document
                           (createRuntime config')
          = Some (node, w', [])
          /\ nodes (this w') = [node]
          /\ getNode (this w') (prismicId node) = Some node
          /\ (forall id, id <> prismicId node -> hasNode (this w') id = false)).
Proof.
  assert (Hbare : forall w,
    subscribed w = [] ->
    notifySubscribers behaviour (S fuel) w = Some (tt, w, [])).
  { intros w Hsub. rewrite notifySubscribers_eq, notifyFrom_S.
    fold (subscribed w). by rewrite Hsub. }
  split; [apply createRuntime_well_formed|]. split; [done|]. split.
  - intros c w Hc Hsub. rewrite perform_commit, Hc.
    apply Hbare. by rewrite subscribed_commit_mutating.
  - intros document node. rewrite registerDocument_commit.
    rewrite Hbare by done.
    eexists. split; [reflexivity|]. simpl. split; [done|].
    unfold getNode, hasNode. simpl. rewrite String.eqb_refl.
    split; [done|]. intros id Hid.
    apply orb_false_iff. split; [|done].
    apply String.eqb_neq. intros Heq. apply Hid. symmetry. exact Heq.
Qed.

End Constructor.

(** ** Identifiers and digests *)

Lemma length_string_of_list_ascii (l : list ascii) :
  String.length (string_of_list_ascii l) = length l.
Proof. induction l as [|a l IH]; simpl; [done|]. by rewrite IH. Qed.

Lemma hex_digit_in (x : Z) : MD5.hex_digit x ∈ hex_digits.
Proof.
  unfold MD5.hex_digit. fold hex_digits.
  destruct (nth_in_or_default (Z.to_nat x) hex_digits "0"%char) as [Hin| ->].
  - by apply list_elem_of_In.
  - unfold hex_digits. simpl. apply list_elem_of_here.
Qed.

Lemma hex_is_hex (bs : list Z) :
  String.length (MD5.hex bs) = 2 * length bs
  /\ Forall (fun a => a ∈ hex_digits) (list_ascii_of_string (MD5.hex bs)).
Proof.
  unfold MD5.hex.
  rewrite length_string_of_list_ascii, list_ascii_of_string_of_list_ascii.
  induction bs as [|b bs [IHlen IHall]]; simpl; [by split|].
  split; [lia|].
  constructor; [apply hex_digit_in|].
  constructor; [apply hex_digit_in|exact IHall].
Qed.

Lemma digest_length (msg : list Z) : length (MD5.digest msg) = 16.
Proof.
  unfold MD5.digest. cbv zeta.
  by destruct (fold_left MD5.block _ MD5.init).
Qed.

Lemma md5_is_hex32 (s : string) : is_hex32 (MD5.md5 s).
Proof.
  unfold is_hex32, MD5.md5.
  destruct (hex_is_hex (MD5.digest (JsString.bytes s))) as [Hlen Hall].
  by rewrite Hlen, digest_length.
Qed.

(** *** Well-formed text *)

Lemma surrogate_at_other a rest :
  JsString.code a <> 237%Z -> JsString.surrogate_at a rest = false.
Proof.
  intros Ha. destruct rest as [|b [|c rest]]; simpl; try done.
  unfold JsString.surrogate.
  destruct (Z.eqb_spec (JsString.code a) 237); [done|reflexivity].
Qed.

Lemma ill_formed_cons_other a rest :
  JsString.code a <> 237%Z ->
  JsString.ill_formed (String a rest) = JsString.ill_formed rest.
Proof. intros Ha. simpl. by rewrite surrogate_at_other. Qed.

Lemma append_cons a s t :
  String.append (String a s) t = String a (String.append s t).
Proof. reflexivity. Qed.

Lemma append_nil t : String.append EmptyString t = t.
Proof. reflexivity. Qed.

Lemma append_assoc (s1 s2 s3 : string) :
  String.append (String.append s1 s2) s3
  = String.append s1 (String.append s2 s3).
Proof.
  induction s1 as [|a s1 IH]; [done|]. by rewrite !append_cons, IH.
Qed.

Lemma append_empty (s : string) : String.append s EmptyString = s.
Proof. induction s as [|a s IH]; [done|]. by rewrite append_cons, IH. Qed.

Lemma starts_low_append s t :
  starts_low s -> starts_low t -> starts_low (String.append s t).
Proof. by destruct s. Qed.

Lemma tidy_empty : tidy EmptyString.
Proof. split; [exact I|done]. Qed.

Lemma tidy_append s1 s2 : tidy s1 -> tidy s2 -> tidy (String.append s1 s2).
Proof.
  intros [Hs1 Hc1] [Hs2 Hc2]. split; [by apply starts_low_append|].
  intros t Ht. rewrite append_assoc, Hc1; [by apply Hc2|].
  by apply starts_low_append.
Qed.

Lemma low_tidy s : low s -> tidy s.
Proof.
  unfold low. induction s as [|a s IH]; simpl; intros Hs; [apply tidy_empty|].
  inversion_clear Hs as [|? ? Ha Hrest]. split; [exact Ha|].
  intros t Ht. rewrite append_cons, ill_formed_cons_other by lia.
  by apply IH.
Qed.

Lemma tidy_ill_formed s : tidy s -> JsString.ill_formed s = false.
Proof.
  intros [_ Hc]. specialize (Hc EmptyString I). by rewrite append_empty in Hc.
Qed.

Lemma low_nil : low EmptyString.
Proof. constructor. Qed.

Lemma low_cons a s : (JsString.code a < 128)%Z -> low s -> low (String a s).
Proof. intros Ha Hs. by constructor. Qed.

Lemma low_append s1 s2 : low s1 -> low s2 -> low (String.append s1 s2).
Proof.
  unfold low. induction s1 as [|a s1 IH]; [done|].
  intros Hs1 Hs2. rewrite append_cons.
  simpl in Hs1 |- *. inversion_clear Hs1.
  constructor; [done|by apply IH].
Qed.

Lemma low_prefix s t :
  low s -> JsString.ill_formed (String.append s t) = JsString.ill_formed t.
Proof.
  unfold low. induction s as [|a s IH]; [done|].
  intros Hs. simpl in Hs. inversion_clear Hs as [|? ? Ha Hrest].
  rewrite append_cons, ill_formed_cons_other by lia. by apply IH.
Qed.

Lemma surrogate_low_second a b c :
  (JsString.code b < 128)%Z -> JsString.surrogate a b c = false.
Proof.
  intros Hb. unfold JsString.surrogate.
  destruct (Z.leb_spec 160 (JsString.code b)); [lia|].
  by rewrite andb_false_r.
Qed.

Lemma surrogate_low_third a b c :
  (JsString.code c < 128)%Z -> JsString.surrogate a b c = false.
Proof.
  intros Hc. unfold JsString.surrogate.
  destruct (Z.leb_spec 128 (JsString.code c)); [lia|].
  by rewrite andb_false_r.
Qed.

Lemma hex_digit_low (x : Z) : (JsString.code (MD5.hex_digit x) < 128)%Z.
Proof.
  pose proof (hex_digit_in x) as Hin. unfold hex_digits in Hin. simpl in Hin.
  repeat (apply elem_of_cons in Hin as [-> | Hin]; [by vm_compute|]).
  by apply elem_of_nil in Hin.
Qed.

Lemma unicode_escape_shape (n : Z) :
  low (JSON.unicode_escape n)
  /\ exists tail, JSON.unicode_escape n = String JSON.backslash tail.
Proof.
  split; [|by eexists].
  unfold JSON.unicode_escape, JSON.hex4. simpl.
  repeat (apply low_cons; [first [by vm_compute|apply hex_digit_low]|]).
  apply low_nil.
Qed.

(** An escaped byte is the byte itself, or text of bytes below 128 that
    starts with a backslash. *)
Lemma escape_shape (a : ascii) :
  JSON.escape a = String a EmptyString
  \/ (low (JSON.escape a)
      /\ exists tail, JSON.escape a = String JSON.backslash tail).
Proof.
  unfold JSON.escape. cbv zeta.
  repeat (case_match;
          [right; split;
           [repeat (apply low_cons; [by vm_compute|]); apply low_nil
           |by eexists]|]);
  try (case_match; [right; apply unicode_escape_shape|]);
  by left.
Qed.

Lemma escape_all_surrogate a b c rest :
  JsString.surrogate a b c = true ->
  JSON.escape_all (String a (String b (String c rest)))
  = String.append (JSON.unicode_escape (JsString.code_point3 a b c))
                  (JSON.escape_all rest).
Proof. intros Hs. cbn [JSON.escape_all]. by rewrite Hs. Qed.

Lemma escape_all_plain a rest :
  JsString.surrogate_at a rest = false ->
  JSON.escape_all (String a rest)
  = String.append (JSON.escape a) (JSON.escape_all rest).
Proof.
  destruct rest as [|b [|c rest]]; [done..|].
  simpl JsString.surrogate_at. intros Hs. cbn [JSON.escape_all].
  by rewrite Hs.
Qed.

(** The text of a string starts with a backslash or with the first byte of
    the string. *)
Lemma escape_all_head a rest :
  (exists tail, JSON.escape_all (String a rest) = String JSON.backslash tail)
  \/ JSON.escape_all (String a rest) = String a (JSON.escape_all rest).
Proof.
  destruct (JsString.surrogate_at a rest) eqn:Hs.
  - destruct rest as [|b [|c rest]]; [done..|]. left.
    rewrite escape_all_surrogate by done.
    destruct (unicode_escape_shape (JsString.code_point3 a b c))
      as [_ [tail ->]].
    rewrite append_cons. by eexists.
  - rewrite escape_all_plain by done.
    destruct (escape_shape a) as [-> | [_ [tail ->]]].
    + right. by rewrite append_cons, append_nil.
    + left. rewrite append_cons. by eexists.
Qed.

Lemma surrogate_at_low a t :
  starts_low t -> JsString.surrogate_at a t = false.
Proof.
  destruct t as [|x [|y t]]; [done..|]. simpl.
  apply surrogate_low_second.
Qed.

Lemma surrogate_at_escape_all a rest t :
  JsString.surrogate_at a rest = false -> starts_low t ->
  JsString.surrogate_at a (String.append (JSON.escape_all rest) t) = false.
Proof.
  intros Hs Ht. destruct rest as [|b rest].
  { by apply surrogate_at_low. }
  destruct (escape_all_head b rest) as [[tail ->] | ->]; rewrite append_cons.
  { by apply surrogate_at_low. }
  destruct rest as [|c rest].
  { simpl JSON.escape_all. rewrite append_nil.
    destruct t as [|y t]; [done|]. simpl. by apply surrogate_low_third. }
  destruct (escape_all_head c rest) as [[tail ->] | ->]; rewrite append_cons.
  - simpl. by apply surrogate_low_third.
  - exact Hs.
Qed.

(** [QuoteJSONString] leaves no surrogate without partner. *)
Lemma escape_all_clean (n : nat) : forall s t,
  String.length s <= n -> starts_low t ->
  JsString.ill_formed (String.append (JSON.escape_all s) t)
  = JsString.ill_formed t.
Proof.
  induction n as [|n IH]; intros s t Hlen Ht.
  { destruct s; [done|simpl in Hlen; lia]. }
  destruct s as [|a rest]; [done|]. simpl in Hlen.
  destruct (JsString.surrogate_at a rest) eqn:Hs.
  - destruct rest as [|b [|c rest]]; [done..|]. simpl in Hlen.
    rewrite escape_all_surrogate, append_assoc by done.
    rewrite low_prefix by apply unicode_escape_shape.
    apply IH; [lia|done].
  - rewrite escape_all_plain, append_assoc by done.
    destruct (escape_shape a) as [Hself | [Hlow _]].
    + rewrite Hself, append_cons, append_nil.
      cbn [JsString.ill_formed].
      rewrite surrogate_at_escape_all by done.
      apply IH; [lia|done].
    + rewrite low_prefix by done. apply IH; [lia|done].
Qed.

Lemma tidy_quote (s : string) : tidy (JSON.quote s).
Proof.
  unfold JSON.quote. split; [by vm_compute|].
  intros t Ht.
  rewrite append_cons, ill_formed_cons_other by by vm_compute.
  rewrite append_assoc, (escape_all_clean (String.length s)); [|lia|].
  - rewrite append_cons, append_nil. by apply ill_formed_cons_other.
  - by vm_compute.
Qed.

Lemma pretty_N_char_low (x : N) : (JsString.code (pretty_N_char x) < 128)%Z.
Proof. unfold pretty_N_char. by repeat case_match; vm_compute. Qed.

Lemma pretty_N_go_low (x : N) : forall s, low s -> low (pretty_N_go x s).
Proof.
  induction (N.lt_wf_0 x) as [x _ IH]. intros s Hs.
  destruct (decide (x = 0%N)) as [->|Hx]; [done|].
  rewrite pretty_N_go_step by lia.
  apply IH; [apply N.div_lt; lia|].
  apply low_cons; [apply pretty_N_char_low|done].
Qed.

Lemma pretty_N_low (x : N) : low (pretty x).
Proof.
  unfold pretty, pretty_N. case_decide.
  - apply low_cons; [by vm_compute|apply low_nil].
  - apply pretty_N_go_low, low_nil.
Qed.

Lemma pretty_Z_low (z : Z) : low (pretty z).
Proof.
  unfold pretty, pretty_Z. destruct z as [|p|p].
  - apply low_cons; [by vm_compute|apply low_nil].
  - apply pretty_N_low.
  - rewrite append_cons, append_nil.
    apply low_cons; [by vm_compute|apply pretty_N_low].
Qed.

Lemma tidy_join sep parts :
  tidy sep -> Forall tidy parts -> tidy (JsString.join sep parts).
Proof.
  intros Hsep. induction 1 as [|x parts Hx Hparts IH]; [apply tidy_empty|].
  destruct parts as [|y parts]; [done|].
  change (JsString.join sep (x :: y :: parts))
    with (String.append x (String.append sep (JsString.join sep (y :: parts)))).
  by repeat apply tidy_append.
Qed.

Lemma tidy_text (s : string) :
  Forall (fun a => (JsString.code a <? 128)%Z = true)
         (list_ascii_of_string s) ->
  tidy s.
Proof.
  intros Hs. apply low_tidy. unfold low.
  eapply Forall_impl; [exact Hs|]. intros a Ha. simpl in Ha. lia.
Qed.

Lemma JsValue_nested_ind (P : JsValue -> Prop) :
  P JUndefined -> P JNull -> (forall b, P (JBool b)) ->
  (forall z safe, P (JNumber z safe)) -> (forall s, P (JString s)) ->
  (forall items, Forall P items -> P (JArray items)) ->
  (forall props, Forall (fun kv => P kv.2) props -> P (JObject props)) ->
  forall v, P v.
Proof.
  intros Hundefined Hnull Hbool Hnumber Hstring Harray Hobject.
  fix IH 1. intros [| |b|z safe|s|items|props].
  - exact Hundefined.
  - exact Hnull.
  - apply Hbool.
  - apply Hnumber.
  - apply Hstring.
  - apply Harray.
    exact ((fix go (l : list JsValue) : Forall P l :=
              match l with
              | [] => List.Forall_nil _
              | x :: l' => List.Forall_cons _ x l' (IH x) (go l')
              end) items).
  - apply Hobject.
    exact ((fix go (l : list (string * JsValue))
              : Forall (fun kv => P kv.2) l :=
              match l with
              | [] => List.Forall_nil _
              | kv :: l' => List.Forall_cons _ kv l' (IH kv.2) (go l')
              end) props).
Qed.

(** The text [JSON.stringify] gives holds no surrogate without partner. *)
Lemma serialize_tidy (v : JsValue) :
  forall s, JSON.serialize v = Some s -> tidy s.
Proof.
  induction v as [| |b|z safe|text|items IH|props IH]
    using JsValue_nested_ind; intros s; simpl; intros Hs; simplify_eq.
  - apply tidy_text. by repeat constructor.
  - destruct b; apply tidy_text; by repeat constructor.
  - apply low_tidy, pretty_Z_low.
  - apply tidy_quote.
  - apply tidy_append; [apply tidy_text; by repeat constructor|].
    apply tidy_append; [|apply tidy_text; by repeat constructor].
    apply tidy_join; [apply tidy_text; by repeat constructor|].
    induction IH as [|x items Hx _ IHitems]; simpl; constructor; [|done].
    destruct (JSON.serialize x) as [sx|]; simpl; [by apply Hx|].
    apply tidy_text. by repeat constructor.
  - apply tidy_append; [apply tidy_text; by repeat constructor|].
    apply tidy_append; [|apply tidy_text; by repeat constructor].
    apply tidy_join; [apply tidy_text; by repeat constructor|].
    induction IH as [|[k x] props Hx _ IHprops]; simpl; [constructor|].
    simpl in Hx. destruct (JSON.serialize x) as [sx|]; simpl; [|done].
    constructor; [|done].
    apply tidy_append; [apply tidy_quote|].
    apply tidy_append; [apply tidy_text; by repeat constructor|by apply Hx].
Qed.

Lemma stringify_well_formed (v : JsValue) :
  JsString.ill_formed (default "undefined"%string (JSON.stringify v)) = false.
Proof.
  unfold JSON.stringify.
  destruct (JSON.serialize v) as [s|] eqn:Hs; simpl; [|reflexivity].
  by eapply tidy_ill_formed, serialize_tidy.
Qed.

(** X10: [createNodeId] returns an identifier exactly for the well-formed
    strings, and throws a [URIError] for a string that holds a surrogate
    with no partner. [createContentDigest] returns a digest for every
    value: the text [JSON.stringify] gives is always well-formed, a
    surrogate with no partner being written as an escape. Identifiers and
    digests are texts of exactly 32 lowercase hexadecimal digits. *)
Theorem identifiers_are_hex32 :
  (forall input : string,
      match createNodeId input with
      | Returns identifier =>
          JsString.ill_formed input = false /\ is_hex32 identifier
      | Throws e => JsString.ill_formed input = true /\ e = URIError
      end)
  /\ (forall input : JsValue,
        exists digest,
          createContentDigest input = Returns digest /\ is_hex32 digest).
Proof.
  split.
  - intros input. unfold createNodeId, md5.
    destruct (JsString.ill_formed input); [done|].
    split; [done|apply md5_is_hex32].
  - intros input. unfold createContentDigest, md5.
    rewrite stringify_well_formed.
    eexists. split; [reflexivity|apply md5_is_hex32].
Qed.

(** X11: the digest does not see [undefined]: a property whose value is
    [undefined] can be added to an object, or removed from it, without
    changing the digest, and an [undefined] array element has the digest
    of [null] in its place. [JSON.stringify] has no text only for the
    value [undefined] itself, which is hashed as the text ['undefined']. *)
Theorem digest_does_not_see_undefined :
  (forall before key after,
      createContentDigest (JObject (before ++ (key, JUndefined) :: after))
      = createContentDigest (JObject (before ++ after)))
  /\ (forall before after,
        createContentDigest (JArray (before ++ JUndefined :: after))
        = createContentDigest (JArray (before ++ JNull :: after)))
  /\ (forall input, JSON.stringify input = None <-> input = JUndefined)
  /\ createContentDigest JUndefined = md5 "undefined".
Proof.
  split; [|split; [|split]].
  - intros before key after. unfold createContentDigest, JSON.stringify.
    simpl. by rewrite !omap_app.
  - intros before after. unfold createContentDigest, JSON.stringify.
    simpl. by rewrite !map_app.
  - intros input. unfold JSON.stringify.
    split; [by destruct input|by intros ->].
  - reflexivity.
Qed.

(** ** Identity and digest *)

(** C3 (as amended): equal payloads have equal digests, and so do payloads
    with the same [JSON.stringify] text; payloads with different digests
    are different. *)
Theorem createContentDigest_of_equal_payloads (P1 P2 : JsValue) :
  (P1 = P2 -> createContentDigest P1 = createContentDigest P2)
  /\ (JSON.stringify P1 = JSON.stringify P2 ->
      createContentDigest P1 = createContentDigest P2)
  /\ (createContentDigest P1 <> createContentDigest P2 ->
      P1 <> P2 /\ JSON.stringify P1 <> JSON.stringify P2).
Proof.
  unfold createContentDigest. split; [|split].
  - by intros ->.
  - by intros ->.
  - intros Hd. split; intros Heq; apply Hd; by rewrite Heq.
Qed.

(** C6: [createNodeId] is the same function of its input in every
    runtime. Take two runtimes, with any configurations, callbacks and
    calls made so far. The function each of them has given to its node
    helpers is [createNodeId], and its outcome is fixed by the bytes of the
    input: the MD5 of a well-formed input, a [URIError] otherwise. The
    identifier the helpers of a runtime make of some parts is
    [createNodeId] of the type prefix of that runtime and the parts,
    whatever was called since the runtime was made; so two runtimes
    configured with the same type prefix make the same identifiers. *)
Theorem createNodeId_deterministic `{Types} `{!Modules}
  (behaviour1 behaviour2 : SubscriberFn -> World -> list Call)
  (config1 config2 : RuntimeConfig.t) (fuel1 fuel2 : nat)
  (calls1 calls2 : list Call) (u1 u2 : unit) (w1 w2 : World)
  (log1 log2 : list Invocation) (input : string) :
  for_each (perform (notifySubscribers behaviour1 fuel1)) calls1
           (createRuntime config1) = Some (u1, w1, log1) ->
  for_each (perform (notifySubscribers behaviour2 fuel2)) calls2
           (createRuntime config2) = Some (u2, w2, log2) ->
  let helpers1 := nodeHelpers (this w1) in
  let helpers2 := nodeHelpers (this w2) in
  let typePrefix (config' : RuntimeConfig.t) :=
    JsString.join " "
      (filter (fun s => s <> EmptyString)
         (GLOBAL_TYPE_PREFIX
            :: option_list (RuntimeConfig.typePrefix config'))) in
  NodeHelpers.Params.createNodeId (NodeHelpers.params helpers1) input
  = createNodeId input
  /\ NodeHelpers.Params.createNodeId (NodeHelpers.params helpers2) input
     = createNodeId input
  /\ createNodeId input
     = (if JsString.ill_formed input then Throws URIError
        else Returns (MD5.md5 input))
  /\ (forall parts,
        NodeHelpers.createNodeId helpers1 parts
        = createNodeId (JsString.join " " (typePrefix config1 :: parts)))
  /\ (forall parts,
        NodeHelpers.createNodeId helpers2 parts
        = createNodeId (JsString.join " " (typePrefix config2 :: parts)))
  /\ (RuntimeConfig.typePrefix config1 = RuntimeConfig.typePrefix config2 ->
      helpers1 = helpers2
      /\ forall parts,
          NodeHelpers.createNodeId helpers1 parts
          = NodeHelpers.createNodeId helpers2 parts).
Proof.
  intros Hrun1 Hrun2 helpers1 helpers2 typePrefix.
  apply script_extends in Hrun1 as (_ & _ & _ & _ & _ & Hn1);
    [|apply createRuntime_well_formed].
  apply script_extends in Hrun2 as (_ & _ & _ & _ & _ & Hn2);
    [|apply createRuntime_well_formed].
  unfold helpers1, helpers2. rewrite Hn1, Hn2.
  split; [reflexivity|]. split; [reflexivity|]. split; [reflexivity|].
  split; [reflexivity|]. split; [reflexivity|].
  intros Heq. unfold createRuntime, constructor. simpl. by rewrite Heq.
Qed.

(** ** The runtime on concrete inputs *)

Import Fixture.

(** C1, counterexample: the query [["a__SEPARATOR__b"]] has one component
    and the registered path [["a"; "b"]] has two, yet [getTypePath] returns
    the entry, where the component-wise lookup finds nothing. *)
Lemma getTypePath_joined_collision :
  let r := this (commit (RegisterTypePaths [select_ab])
                        (createRuntime no_config)) in
  getTypePath r ["a__SEPARATOR__b"] = Some select_ab
  /\ lookup_componentwise (typePaths r) ["a__SEPARATOR__b"] = None
  /\ path select_ab <> ["a__SEPARATOR__b"].
Proof. split; [|split]; [vm_compute; reflexivity..|discriminate]. Qed.

Example getTypePath_shadowing :
  let r := this (commit (RegisterTypePaths [select_ab; text_ab])
                        (createRuntime no_config)) in
  getTypePath r ["a"; "b"] = Some select_ab
  /\ getTypePath r ["a"] = None.
Proof. split; vm_compute; reflexivity. Qed.

(** C3, counterexample: two payloads that differ in a field value, an array
    holding [null] and an array holding [undefined], have the same
    digest. *)
Lemma createContentDigest_collision :
  let P1 := JObject [("a", JArray [JNull])] in
  let P2 := JObject [("a", JArray [JUndefined])] in
  P1 <> P2 /\ createContentDigest P1 = createContentDigest P2.
Proof. split; [discriminate|vm_compute; reflexivity]. Qed.

Example createContentDigest_key_order :
  createContentDigest (JObject [("a", JNumber 1 I); ("b", JNumber 2 I)])
  <> createContentDigest (JObject [("b", JNumber 2 I); ("a", JNumber 1 I)]).
Proof. vm_compute. discriminate. Qed.

(** C4, counterexample: callback 7 is subscribed twice and callback 8 once;
    after [unsubscribe(7)] a mutation invokes one callback, not two. *)
Lemma unsubscribe_duplicate_counterexample :
  summary silent 5
    [Subscribe 7; Subscribe 7; Subscribe 8; Unsubscribe 7;
     RegisterTypePaths [select_ab]]
  = Some ([8], [8], [["a"; "b"]])
  /\ length [8] <> length [7; 7; 8] - 1.
Proof. split; [vm_compute; reflexivity|simpl; lia]. Qed.

(** C5, counterexample: [unsubscribe] shortens the subscribers; the
    sequence before the call is not a prefix of the sequence after it. *)
Lemma unsubscribe_not_append_only :
  let w := subscribed_world [7; 8] in
  exists w',
    perform (notifySubscribers silent 5) (Unsubscribe 7) w = Some (tt, w', [])
    /\ subscribed w = [7; 8]
    /\ subscribed w' = [8]
    /\ ~ subscribed w `prefix_of` subscribed w'.
Proof.
  eexists. split; [reflexivity|].
  split; [reflexivity|]. split; [reflexivity|].
  intros [k Hk]. discriminate Hk.
Qed.

Lemma busy_quiet_123 : Forall (quiet_callback busy) [1; 2; 3].
Proof.
  repeat constructor; intros w; simpl; repeat constructor.
Defined.

Lemma silent_inert l : Forall (inert silent) l.
Proof. apply Forall_forall. intros cb _ w. reflexivity. Defined.

Lemma subscribed_world_well_formed l : well_formed (subscribed_world l).
Proof.
  unfold subscribed_world.
  apply commits_extends. unfold well_formed. simpl. lia.
Defined.

(** C2, witness: callbacks 1, 2 and 3 are subscribed; callback 1 subscribes
    another and callback 2 unsubscribes callback 3 while they run. *)
Lemma mutation_notifies_subscribers_witness :
  let w := subscribed_world [1; 2; 3] in
  let c := RegisterTypePaths [select_ab] in
  well_formed w /\ mutating c = true
  /\ exists w' log,
      perform (notifySubscribers busy 6) c w = Some (tt, w', log)
      /\ map callback_of log = [1; 2; 3]
      /\ Forall (fun iv => nodes (this (seen_by iv)) = []
                           /\ typePaths (this (seen_by iv)) = [select_ab])
                log.
Proof.
  intros w c.
  pose proof (subscribed_world_well_formed [1; 2; 3]) as Hw.
  split; [exact Hw|]. split; [reflexivity|].
  destruct (mutation_notifies_subscribers busy 6 c w Hw eq_refl) as [_ Hq].
  apply Hq; [exact busy_quiet_123|simpl; lia].
Defined.

(** C10, witness: the same run; the callbacks invoked are those subscribed
    when the notification began. *)
Lemma notification_iterates_initial_array_witness :
  let w := subscribed_world [1; 2; 3] in
  let c := RegisterTypePaths [select_ab] in
  well_formed w /\ mutating c = true
  /\ exists w' log,
      perform (notifySubscribers busy 6) c w = Some (tt, w', log)
      /\ map callback_of log = [1; 2; 3]
      /\ Forall (fun iv => nested_in iv = []) log
      /\ elements (heap w') (subscribers (this w)) = [1; 2; 3].
Proof.
  intros w c.
  pose proof (subscribed_world_well_formed [1; 2; 3]) as Hw.
  split; [exact Hw|]. split; [reflexivity|].
  destruct (notification_iterates_initial_array busy 6 c w Hw eq_refl)
    as (_ & _ & Hq).
  apply Hq; [exact busy_quiet_123|simpl; lia].
Defined.

Example notification_then_new_subscribers :
  summary busy 6
    [Subscribe 1; Subscribe 2; Subscribe 3; RegisterTypePaths [select_ab];
     RegisterTypePaths [text_ab]]
  = Some ([1; 2; 3; 1; 2; 9], [1; 2; 9; 9], [["a"; "b"]; ["a"; "b"]]).
Proof. vm_compute. reflexivity. Qed.

(** C9, counterexample: callback 1 is subscribed; during the notification
    of [registerTypePaths] it subscribes callback 9 and registers a
    document. After the call the subscribers and the nodes are not those
    before it. *)
Lemma registerTypePaths_changes_nodes_and_subscribers :
  let w := subscribed_world [1] in
  let c := RegisterTypePaths [select_ab] in
  let w' := (after meddling 6 c w).1 in
  let log := (after meddling 6 c w).2 in
  registerTypePaths (notifySubscribers meddling 6) [select_ab] w
  = Some (tt, w', log)
  /\ map callback_of log = [1]
  /\ subscribed w = [1]
  /\ subscribed w' = [1; 9]
  /\ nodes (this w) = []
  /\ map prismicId (nodes (this w')) = ["doc1"]
  /\ typePaths (this w') = [select_ab].
Proof. repeat split; reflexivity. Qed.

(** C9, witness: the same type path registered twice in one call, with two
    subscribers that do not call the runtime. *)
Lemma registerTypePaths_appends_only_witness :
  let w := subscribed_world [7; 8] in
  well_formed w
  /\ exists w' log,
      registerTypePaths (notifySubscribers silent 5) [select_ab; select_ab] w
      = Some (tt, w', log)
      /\ map callback_of log = [7; 8]
      /\ typePaths (this w') = [select_ab; select_ab]
      /\ nodes (this w') = nodes (this w)
      /\ subscribed w' = subscribed w
      /\ config (this w') = config (this w)
      /\ nodeHelpers (this w') = nodeHelpers (this w).
Proof.
  intros w.
  pose proof (subscribed_world_well_formed [7; 8]) as Hw.
  split; [exact Hw|].
  destruct (registerTypePaths_appends_only silent 5 [select_ab; select_ab]
              w Hw) as [Hi _].
  destruct Hi as (log & Hrun); [apply silent_inert|simpl; lia|].
  eexists _, log. exact Hrun.
Defined.

(** C7, witness: a document of type [page] registered while callbacks 1
    and 2 are subscribed. *)
Lemma registerDocument_appends_normalized_witness :
  let w := subscribed_world [1; 2] in
  let node := {| node_prismicId := "doc1"; node_path := ["page"];
                 node_known := [false] |} in
  well_formed w
  /\ normalizeDocument (this w) doc1 = node
  /\ exists w' log,
      registerDocument (notifySubscribers busy 6) doc1 w
      = Some (node, w', log)
      /\ nodes (this w') = [node].
Proof.
  intros w node.
  pose proof (subscribed_world_well_formed [1; 2]) as Hw.
  split; [exact Hw|]. split; [reflexivity|].
  destruct (registerDocument_appends_normalized busy 6 w Hw)
    as (_ & _ & _ & Hq).
  destruct Hq as [Hone _].
  - repeat constructor; intros v; simpl; repeat constructor.
  - simpl. lia.
  - exact (Hone doc1).
Defined.

Example registerDocuments_in_order :
  match registerDocuments (notifySubscribers silent 5) [doc1; doc2]
                          (subscribed_world [7]) with
  | Some (nodes', w', log) =>
      map node_path nodes' = [["page"]; ["post"]]
      /\ map node_prismicId (nodes (this w')) = ["doc1"; "doc2"]
      /\ map callback_of log = [7]
  | None => False
  end.
Proof. vm_compute. auto. Qed.

(** C4, witness: callback 2 is subscribed twice among four subscriptions
    and then unsubscribed. *)
Lemma unsubscribe_removes_every_subscription_witness :
  let c := RegisterTypePaths [select_ab] in
  mutating c = true
  /\ (exists w' log,
        (for_each subscribe [1; 2; 3; 2] ;;
         unsubscribe 2 ;;
         perform (notifySubscribers busy 6) c) (createRuntime no_config)
        = Some (tt, w', log)
        /\ map callback_of log = [1; 3])
  /\ length [1; 3] = length [1; 2; 3; 2] - length [2; 2].
Proof.
  intros c. split; [reflexivity|].
  destruct (unsubscribe_removes_every_subscription busy no_config 6
              [1; 2; 3; 2] 2 c eq_refl) as (_ & Hq & _ & Hlen & _).
  split; [|exact Hlen].
  apply Hq; [|simpl; lia].
  repeat constructor; intros v; simpl; repeat constructor.
Defined.

(** C5, witness: a document is registered while callbacks 4 and 5 are
    subscribed; callback 4 unsubscribes itself and registers a type path
    when it runs. *)
Lemma sequences_append_only_witness :
  let w := subscribed_world [4; 5] in
  let c := RegisterDocument doc1 in
  let w' := (outcome busy 6 [Subscribe 4; Subscribe 5; c]).1 in
  let log := (outcome busy 6 [Subscribe 4; Subscribe 5; c]).2 in
  well_formed w
  /\ perform (notifySubscribers busy 6) c w = Some (tt, w', log)
  /\ nodes (this w) `prefix_of` nodes (this w')
  /\ typePaths (this w) `prefix_of` typePaths (this w')
  /\ map node_prismicId (nodes (this w')) = ["doc1"]
  /\ map path (typePaths (this w')) = [["late"]]
  /\ subscribed w' = [5].
Proof.
  intros w c w' log.
  pose proof (subscribed_world_well_formed [4; 5]) as Hw.
  assert (Hrun : perform (notifySubscribers busy 6) c w = Some (tt, w', log))
    by reflexivity.
  split; [exact Hw|]. split; [exact Hrun|].
  destruct (sequences_append_only busy 6 c w tt w' log Hw Hrun)
    as (Hn & Ht & _).
  split; [exact Hn|]. split; [exact Ht|].
  split; [reflexivity|]. split; reflexivity.
Defined.

(** C6, witness: two runtimes with the same type prefix and different
    configurations, callbacks and calls. *)
Lemma createNodeId_deterministic_witness :
  let other : RuntimeConfig.t :=
    {| RuntimeConfig.typePrefix := None;
       RuntimeConfig.linkResolver := None;
       RuntimeConfig.imageImgixParams := Some [("w", "640")];
       RuntimeConfig.imagePlaceholderImgixParams := None;
       RuntimeConfig.htmlSerializer := Some tt;
       RuntimeConfig.transformFieldName := Some (fun s => s) |} in
  let calls1 := [Subscribe 4; RegisterDocument doc1] in
  let calls2 := [RegisterCustomTypeModel page] in
  let w1 := (outcome busy 6 calls1).1 in
  let w2 :=
    match for_each (perform (notifySubscribers silent 3)) calls2
                   (createRuntime other) with
    | Some (_, w, _) => w
    | None => createRuntime other
    end in
  NodeHelpers.createNodeId (nodeHelpers (this w1)) ["page"; "doc1"]
  = Returns "227c10005d427c2f7001e22cf555f487"
  /\ NodeHelpers.createNodeId (nodeHelpers (this w2)) ["page"; "doc1"]
     = Returns "227c10005d427c2f7001e22cf555f487"
  /\ nodeHelpers (this w1) = nodeHelpers (this w2)
  /\ NodeHelpers.Params.createNodeId
       (NodeHelpers.params (nodeHelpers (this w2))) "Prismic page doc1"
     = createNodeId "Prismic page doc1"
  /\ createNodeId "Prismic page doc1"
     = Returns "227c10005d427c2f7001e22cf555f487".
Proof.
  intros other calls1 calls2 w1 w2.
  assert (Hrun1 : for_each (perform (notifySubscribers busy 6)) calls1
                           (createRuntime no_config)
                  = Some (tt, w1, (outcome busy 6 calls1).2))
    by reflexivity.
  assert (Hrun2 : for_each (perform (notifySubscribers silent 3)) calls2
                           (createRuntime other) = Some (tt, w2, []))
    by reflexivity.
  destruct (createNodeId_deterministic busy silent no_config other 6 3
              calls1 calls2 tt tt w1 w2 _ _ "Prismic page doc1" Hrun1 Hrun2)
    as (_ & Hgiven & _ & Hid1 & Hid2 & Hsame).
  destruct (Hsame eq_refl) as [Hhelpers _].
  split; [rewrite Hid1; vm_compute; reflexivity|].
  split; [rewrite Hid2; vm_compute; reflexivity|].
  split; [exact Hhelpers|]. split; [exact Hgiven|].
  vm_compute. reflexivity.
Defined.

(** The identifiers of the node helpers depend on the type prefix the
    runtime was configured with. *)
Example createNodeId_typePrefix :
  let blog : RuntimeConfig.t :=
    {| RuntimeConfig.typePrefix := Some "blog";
       RuntimeConfig.linkResolver := None;
       RuntimeConfig.imageImgixParams := None;
       RuntimeConfig.imagePlaceholderImgixParams := None;
       RuntimeConfig.htmlSerializer := None;
       RuntimeConfig.transformFieldName := None |} in
  NodeHelpers.createNodeId (nodeHelpers (this (createRuntime no_config)))
                           ["Prismic page doc1"]
  = md5 "Prismic Prismic page doc1"
  /\ NodeHelpers.createNodeId (nodeHelpers (this (createRuntime blog)))
                              ["Prismic page doc1"]
     = md5 "Prismic blog Prismic page doc1"
  /\ md5 "Prismic Prismic page doc1"
     = Returns "b3dd05721bd8028498cd92c8c3e26f11"
  /\ md5 "Prismic blog Prismic page doc1"
     = Returns "7ce09729f763f9414991925e4ff1f8f6".
Proof. repeat split; vm_compute; reflexivity. Qed.

(** ** The further statements on concrete inputs *)

Lemma outcome_well_formed behaviour fuel script :
  well_formed (outcome behaviour fuel script).1.
Proof.
  unfold outcome, run.
  destruct (for_each _ _ _) as [[[u w] log]|] eqn:Hrun; simpl.
  - eapply script_extends; [|exact Hrun]. apply createRuntime_well_formed.
  - apply createRuntime_well_formed.
Defined.

(** X1, witness: a document and a type path are registered; then a
    document is registered while callback 4, which registers a type path
    itself, is subscribed. *)
Lemma lookups_persist_witness :
  let w := (outcome silent 3 [RegisterDocument doc1;
                              RegisterTypePaths [select_ab]; Subscribe 4]).1 in
  let c := RegisterDocument doc2 in
  let w' := (after busy 6 c w).1 in
  let log := (after busy 6 c w).2 in
  well_formed w
  /\ perform (notifySubscribers busy 6) c w = Some (tt, w', log)
  /\ option_map node_path (getNode (this w) "doc1") = Some ["page"]
  /\ getNode (this w') "doc1" = getNode (this w) "doc1"
  /\ hasNode (this w') "doc1" = true
  /\ getTypePath (this w') ["a"; "b"] = Some select_ab
  /\ map path (typePaths (this w')) = [["a"; "b"]; ["late"]].
Proof.
  intros w c w' log.
  pose proof (outcome_well_formed silent 3
                [RegisterDocument doc1; RegisterTypePaths [select_ab];
                 Subscribe 4]) as Hw.
  assert (Hrun : perform (notifySubscribers busy 6) c w = Some (tt, w', log))
    by reflexivity.
  destruct (lookups_persist busy 6 c w tt w' log Hw Hrun)
    as (Hnode & Hhas & Hpath).
  split; [exact Hw|]. split; [exact Hrun|]. split; [reflexivity|].
  split; [by apply Hnode|]. split; [by apply Hhas|].
  split; [by apply Hpath|reflexivity].
Defined.

(** X2, witness: two type paths for one path are registered in one call
    while callbacks 1 and 2 are subscribed. *)
Lemma registered_typePaths_found_witness :
  let w := subscribed_world [1; 2] in
  let c := RegisterTypePaths [select_ab; text_ab] in
  let w' := (after busy 6 c w).1 in
  let log := (after busy 6 c w).2 in
  well_formed w /\ mutating c = true
  /\ perform (notifySubscribers busy 6) c w = Some (tt, w', log)
  /\ getTypePath (this w') ["a"; "b"] = Some select_ab
  /\ is_Some (getTypePath (this w') (path text_ab)).
Proof.
  intros w c w' log.
  pose proof (subscribed_world_well_formed [1; 2]) as Hw.
  assert (Hrun : perform (notifySubscribers busy 6) c w = Some (tt, w', log))
    by reflexivity.
  destruct (registered_typePaths_found busy 6 c w tt w' log Hw eq_refl Hrun)
    as (later & _ & Hlookup & Hfound).
  split; [exact Hw|]. split; [reflexivity|]. split; [exact Hrun|].
  split; [by rewrite Hlookup|].
  apply Hfound. simpl. apply list_elem_of_further, list_elem_of_here.
Defined.

(** X3, witness: the document [doc1] is registered a second time. *)
Lemma registerDocument_then_getNode_witness :
  let w := (outcome silent 3 [RegisterDocument doc1; Subscribe 7]).1 in
  let node := normalizeDocument (this w) doc1 in
  let w' := (after silent 3 (RegisterDocument doc1) w).1 in
  let log := (after silent 3 (RegisterDocument doc1) w).2 in
  well_formed w
  /\ registerDocument (notifySubscribers silent 3) doc1 w
     = Some (node, w', log)
  /\ hasNode (this w') "doc1" = true
  /\ getNode (this w') "doc1" = getNode (this w) "doc1"
  /\ length (nodes (this w')) = 2.
Proof.
  intros w node w' log.
  pose proof (outcome_well_formed silent 3
                [RegisterDocument doc1; Subscribe 7]) as Hw.
  assert (Hrun : registerDocument (notifySubscribers silent 3) doc1 w
                 = Some (node, w', log)) by reflexivity.
  destruct (registerDocument_then_getNode silent 3 doc1 w node w' log Hw Hrun)
    as (Hhas & Hget & _).
  split; [exact Hw|]. split; [exact Hrun|]. split; [exact Hhas|].
  split; [exact Hget|reflexivity].
Defined.

(** X4, witness: two custom type models and one shared slice model, with
    callbacks 7 and 8 subscribed. *)
Lemma models_in_batch_or_one_by_one_witness :
  let w := subscribed_world [7; 8] in
  let notify := notifySubscribers silent 5 in
  well_formed w
  /\ (exists w' batch_log each_log,
        registerCustomTypeModels notify [page; post] w
        = Some ([{| path := ["page"; "my_field"]; type := "Select" |};
                 {| path := ["post"; "title"]; type := "Text" |};
                 {| path := ["post"; "sub_title"]; type := "Text" |}],
                w', batch_log)
        /\ for_each (fun model => perform notify (RegisterCustomTypeModel model))
                    [page; post] w
           = Some (tt, w', each_log)
        /\ map callback_of batch_log = [7; 8]
        /\ map callback_of each_log = [7; 8; 7; 8]).
Proof.
  intros w notify.
  pose proof (subscribed_world_well_formed [7; 8]) as Hw.
  split; [exact Hw|].
  destruct (models_in_batch_or_one_by_one silent 5 w [page; post] [page] Hw)
    as [Hcustom _]; [apply silent_inert|simpl; lia|].
  exact Hcustom.
Defined.

(** X5, witness: an empty batch of documents with callback 7 subscribed. *)
Lemma empty_batch_still_notifies_witness :
  let w := subscribed_world [7] in
  let c := RegisterDocuments [] in
  well_formed w /\ empty_batch c
  /\ perform (notifySubscribers silent 3) c w
     = Some (tt, w, [Invoked 7 w []]).
Proof.
  intros w c.
  pose proof (subscribed_world_well_formed [7]) as Hw.
  assert (Hc : empty_batch c) by (right; left; reflexivity).
  split; [exact Hw|]. split; [exact Hc|].
  destruct (empty_batch_still_notifies silent 3 c w Hw Hc)
    as (_ & _ & _ & Hinert).
  apply Hinert; [apply silent_inert|simpl; lia].
Defined.

(** X15, witness: two documents with callback 7 subscribed. *)
Lemma documents_one_by_one_or_in_batch_witness :
  let w := subscribed_world [7] in
  let notify := notifySubscribers silent 3 in
  let node := normalizeDocument (this w) doc1 in
  well_formed w
  /\ exists w1 w2 w' log1 log2 log,
      registerDocument notify doc1 w = Some (node, w1, log1)
      /\ registerDocument notify doc2 w1
         = Some (normalizeDocument (this w1) doc2, w2, log2)
      /\ hasNode (this w1) "doc1" = true
      /\ nodes (this w2)
         = nodes (this w) ++ [node; normalizeDocument (this w1) doc2]
      /\ registerDocuments notify [doc1; doc2] w
         = Some ([node; normalizeDocument (this w) doc2], w', log)
      /\ nodes (this w')
         = nodes (this w) ++ [node; normalizeDocument (this w) doc2]
      /\ (getNode (this w) "doc1" = None -> hasNode (this w) "doc1" = false).
Proof.
  intros w notify node.
  pose proof (subscribed_world_well_formed [7]) as Hw.
  split; [exact Hw|].
  assert (Hlen : length (subscribed w) < 3) by (simpl; lia).
  exact (documents_one_by_one_or_in_batch silent 3 doc1 doc2 w Hw
           (silent_inert _) Hlen).
Defined.

(** X8, witness: callback 9 is not subscribed; callback 1 subscribes it
    during the notification. *)
Lemma unsubscribed_callback_not_invoked_witness :
  let w := subscribed_world [1; 2; 3] in
  let c := RegisterTypePaths [select_ab] in
  let w' := (after busy 6 c w).1 in
  let log := (after busy 6 c w).2 in
  well_formed w /\ mutating c = true
  /\ (9 ∉ subscribed w)
  /\ perform (notifySubscribers busy 6) c w = Some (tt, w', log)
  /\ (9 ∉ map callback_of log)
  /\ subscribed w' = [1; 2; 9].
Proof.
  intros w c w' log.
  pose proof (subscribed_world_well_formed [1; 2; 3]) as Hw.
  assert (Habsent : 9 ∉ subscribed w).
  { intros Hin. repeat (apply elem_of_cons in Hin as [Hin|Hin];
                        [discriminate Hin|]). by apply elem_of_nil in Hin. }
  assert (Hrun : perform (notifySubscribers busy 6) c w = Some (tt, w', log))
    by reflexivity.
  destruct (unsubscribed_callback_not_invoked busy 6 c 9 w Hw eq_refl)
    as [Hnot _].
  split; [exact Hw|]. split; [reflexivity|]. split; [exact Habsent|].
  split; [exact Hrun|]. split; [|reflexivity].
  exact (Hnot tt w' log Habsent Hrun).
Defined.

(** X9, witness: callback 6 registers on every run; callback 7, before it,
    does nothing. *)
Lemma reentrant_registration_never_returns_witness :
  let w := subscribed_world [7; 6; 8] in
  let c := RegisterDocument doc1 in
  mutating c = true
  /\ subscribed w = [7] ++ 6 :: [8]
  /\ Forall (inert restless) [7]
  /\ always_registers restless 6
  /\ perform (notifySubscribers restless 1000) c w = None.
Proof.
  intros w c.
  assert (Hpre : Forall (inert restless) [7]).
  { constructor; [|constructor]. intros v. reflexivity. }
  assert (Hcb : always_registers restless 6).
  { intros v. eexists _, _. split; reflexivity. }
  split; [reflexivity|]. split; [reflexivity|]. split; [exact Hpre|].
  split; [exact Hcb|].
  exact (reentrant_registration_never_returns restless 1000 c w [7] [8] 6
           eq_refl eq_refl Hpre Hcb).
Defined.

(** ** Tests *)

Local Open Scope string_scope.

(** RFC 1321 test suite (appendix A.5). *)
Example md5_empty :
  md5 EmptyString = Returns "d41d8cd98f00b204e9800998ecf8427e".
Proof. vm_compute. reflexivity. Qed.

Example md5_abc : md5 "abc" = Returns "900150983cd24fb0d6963f7d28e17f72".
Proof. vm_compute. reflexivity. Qed.

Example md5_alphabet :
  md5 "abcdefghijklmnopqrstuvwxyz"
  = Returns "c3fcd3d76192e4007dfb496cca67e13b".
Proof. vm_compute. reflexivity. Qed.

Example md5_digits :
  md5 "12345678901234567890123456789012345678901234567890123456789012345678901234567890"
  = Returns "57edf4a22be3c955ac49da2e2107b67a".
Proof. vm_compute. reflexivity. Qed.

(** Two distinct texts with the same MD5 (the collision published by
    M. Stevens): identifiers are deterministic but not injective. *)
Example md5_text_collision :
  md5 "TEXTCOLLBYfGiJUETHQ4hAcKSMd5zYpgqf1YRDhkmxHkhPWptrkoyz28wnI9V0aHeAuaKnak"
  = md5 "TEXTCOLLBYfGiJUETHQ4hEcKSMd5zYpgqf1YRDhkmxHkhPWptrkoyz28wnI9V0aHeAuaKnak".
Proof. vm_compute. reflexivity. Qed.

Example stringify_object :
  JSON.stringify
    (JObject [("n", JNumber (-12) I); ("u", JUndefined);
              ("tags", JArray [JBool true; JNull; JUndefined])])
  = Some (String "{" (JSON.quote "n" ++ ":-12," ++ JSON.quote "tags"
                        ++ ":[true,null,null]}")).
Proof. vm_compute. reflexivity. Qed.

Example quote_control :
  JSON.quote (String (ascii_of_nat 10) (String (ascii_of_nat 1) "a"))
  = String JSON.double_quote
      (String JSON.backslash
         ("n" ++ String JSON.backslash ("u0001a" ++ String JSON.double_quote EmptyString))).
Proof. vm_compute. reflexivity. Qed.

Example createNodeId_example :
  createNodeId "Prismic page XtgNVxEAACQAqbmK"
  = Returns "4d0d010bbed9b4c8c3a86361dd0addbd".
Proof. vm_compute. reflexivity. Qed.

(** The surrogate U+D83D with no partner: [createNodeId] throws, and
    [JSON.stringify] writes it as an escape, which is hashed. *)
Example createNodeId_lone_surrogate :
  let lone :=
    String (ascii_of_nat 237)
      (String (ascii_of_nat 160) (String (ascii_of_nat 189) EmptyString)) in
  createNodeId lone = Throws URIError
  /\ createNodeId ("doc " ++ lone) = Throws URIError
  /\ JSON.quote lone
     = String JSON.double_quote
         (String JSON.backslash
            ("ud83d" ++ String JSON.double_quote EmptyString))
  /\ createContentDigest (JString lone)
     = Returns "0d9cabdef8eaff826392fb3939a33dc4".
Proof. repeat split; vm_compute; reflexivity. Qed.

(** Well-formed strings beside the surrogates: the code point U+1F600, a
    surrogate pair in UTF-16, and the code point U+D7FF. *)
Example createNodeId_well_formed :
  createNodeId
    (String (ascii_of_nat 240)
       (String (ascii_of_nat 159)
          (String (ascii_of_nat 152) (String (ascii_of_nat 128) EmptyString))))
  = Returns "2a02eac39d716a70ecf37579185927b6"
  /\ createNodeId
       (String (ascii_of_nat 237)
          (String (ascii_of_nat 159) (String (ascii_of_nat 191) EmptyString)))
     = Returns "56a93466ea90f67ef61ee08195e05248".
Proof. split; vm_compute; reflexivity. Qed.

Example createContentDigest_example :
  createContentDigest (JArray [JNull])
  = Returns "e3dd48e30aa7bcf81a4d874772465bc6".
Proof. vm_compute. reflexivity. Qed.

Local Open Scope list_scope.

Example run_page :
  summary silent 5
    [Subscribe 7; Subscribe 8; RegisterCustomTypeModel page]
  = Some ([7; 8], [7; 8], [["page"; "my_field"]]).
Proof. vm_compute. reflexivity. Qed.

Example run_busy :
  summary busy 6
    [Subscribe 1; Subscribe 2; Subscribe 3; RegisterTypePaths []]
  = Some ([1; 2; 3], [1; 2; 9], []).
Proof. vm_compute. reflexivity. Qed.

Example run_reentrant :
  summary busy 6
    [Subscribe 4; Subscribe 5; RegisterTypePaths []]
  = Some ([4; 5], [5], [["late"]]).
Proof. vm_compute. reflexivity. Qed.
